(** * foxglove.db.migrations: the transactional migration runner

    A shallow embedding of [src/foxglove/db/migrations.py]
    ([run_migrations] and [run_patch]) over an explicit model of the
    world the two coroutines act on: the committed database, the open
    transaction and its failed state, the table lock and the session
    that holds it, the process-wide [glove.pg] handle and the log.
    Every effect of the Python code is a state transformer on that
    world; exceptions are values of [result]. *)

From Stdlib Require Import ZArith List Bool Lia DecimalString Ascii.
From stdpp Require Import base strings gmap list.
Import ListNotations.

Local Open Scope string_scope.
Local Open Scope Z_scope.
Local Open Scope list_scope.

(** ** Python values, exceptions and results *)

(** The exception classes that occur, with the part of the class
    hierarchy the two [except] clauses look at. *)
Inductive exc_class :=
  | BaseException
  | Exception
  | ValueError
  | RuntimeError
  | KeyError
  | TypeError
  | KeyboardInterrupt
  | SystemExit
  | CancelledError
  | PostgresError
  | LockNotAvailableError
  | StringDataRightTruncationError
  | UniqueViolationError
  | InFailedSQLTransactionError.

#[global] Instance exc_class_eq_dec : EqDecision exc_class.
Proof. solve_decision. Defined.

(** Direct base class ([BaseException] is the root). *)
Definition base_of (c : exc_class) : exc_class :=
  match c with
  | BaseException => BaseException
  | Exception => BaseException
  | KeyboardInterrupt => BaseException
  | SystemExit => BaseException
  | CancelledError => BaseException
  | ValueError => Exception
  | RuntimeError => Exception
  | KeyError => Exception
  | TypeError => Exception
  | PostgresError => Exception
  | LockNotAvailableError => PostgresError
  | StringDataRightTruncationError => PostgresError
  | UniqueViolationError => PostgresError
  | InFailedSQLTransactionError => PostgresError
  end.

Fixpoint subclass_upto (fuel : nat) (c target : exc_class) : bool :=
  if decide (c = target) then true
  else match fuel with
       | O => false
       | S n => subclass_upto n (base_of c) target
       end.

(** [issubclass c target]; the hierarchy above is three levels deep. *)
Definition issubclass (c target : exc_class) : bool := subclass_upto 3 c target.

Record exn := { exn_class : exc_class; exn_msg : string }.

#[global] Instance exn_eq_dec : EqDecision exn.
Proof. solve_decision. Defined.

(** What a Python call gives back: a value or a raised exception. *)
Inductive result (A : Type) :=
  | Returned (a : A)
  | Raised (e : exn).
Arguments Returned {A} a.
Arguments Raised {A} e.

(** The values a patch hands back; [PyObject] is any other object, known
    by what [str] prints for it. *)
Inductive pyval :=
  | PyNone
  | PyBool (b : bool)
  | PyInt (z : Z)
  | PyStr (s : string)
  | PyObject (repr : string).

#[global] Instance pyval_eq_dec : EqDecision pyval.
Proof. solve_decision. Defined.

(** [%d] of an int. *)
Definition fmt_d (z : Z) : string := NilZero.string_of_int (Z.to_int z).

(** [str(v)], as [%s] prints it. *)
Definition py_str (v : pyval) : string :=
  match v with
  | PyNone => "None"
  | PyBool true => "True"
  | PyBool false => "False"
  | PyInt z => fmt_d z
  | PyStr s => s
  | PyObject repr => repr
  end.

(** Truthiness of an [Optional[str]]: [None] and [''] are falsy. *)
Definition truthy (o : option string) : bool :=
  match o with
  | None => false
  | Some s => negb (String.eqb s EmptyString)
  end.

(** [o or d] for an [Optional[str]] [o] and a string [d]. *)
Definition or_else (o : option string) (d : string) : string :=
  match o with
  | Some s => if String.eqb s EmptyString then d else s
  | None => d
  end.

(** ** Text

    A [string] here is the UTF-8 encoding of the Python [str].  Python
    and PostgreSQL count characters, not bytes. *)

(** A byte [10xxxxxx], which continues a character. *)
Definition is_continuation (c : ascii) : bool :=
  match c with Ascii _ _ _ _ _ _ b6 b7 => b7 && negb b6 end.

(** [len(s)] *)
Fixpoint char_length (s : string) : nat :=
  match s with
  | EmptyString => O
  | String c rest => ((if is_continuation c then 0 else 1) + char_length rest)%nat
  end.

(** The first [n] characters of [s], and what follows them. *)
Fixpoint split_chars (n : nat) (s : string) : string * string :=
  match s with
  | EmptyString => (EmptyString, EmptyString)
  | String c rest =>
      if is_continuation c then
        let '(kept, excess) := split_chars n rest in (String c kept, excess)
      else
        match n with
        | O => (EmptyString, s)
        | S k => let '(kept, excess) := split_chars k rest in (String c kept, excess)
        end
  end.

Fixpoint all_spaces (s : string) : bool :=
  match s with
  | EmptyString => true
  | String c rest => Ascii.eqb c " "%char && all_spaces rest
  end.

(** ** Logging *)

Inductive level := DEBUG | INFO | WARNING | ERROR.

#[global] Instance level_eq_dec : EqDecision level.
Proof. solve_decision. Defined.

(** One emitted record; [exc_info] is the exception whose traceback
    [logger.exception] attaches. *)
Record log_record := {
  lr_level : level;
  lr_msg : string;
  exc_info : option exn
}.

#[global] Instance log_record_eq_dec : EqDecision log_record.
Proof. solve_decision. Defined.

Definition info (msg : string) : log_record :=
  {| lr_level := INFO; lr_msg := msg; exc_info := None |}.
Definition debug (msg : string) : log_record :=
  {| lr_level := DEBUG; lr_msg := msg; exc_info := None |}.
Definition warning (msg : string) : log_record :=
  {| lr_level := WARNING; lr_msg := msg; exc_info := None |}.
Definition exception (msg : string) (e : exn) : log_record :=
  {| lr_level := ERROR; lr_msg := msg; exc_info := Some e |}.

Fixpoint dashes (n : nat) : string :=
  match n with
  | O => EmptyString
  | S k => "-" +:+ dashes k
  end.

(** ['{:-^50}'.format(s)]: [s] centred in 50 columns, filled with
    dashes, the odd dash going to the right.  The width is in
    characters. *)
Definition banner (s : string) : string :=
  let pad := (50 - char_length s)%nat in
  let left := Nat.div pad 2 in
  dashes left +:+ s +:+ dashes (pad - left)%nat.

(** The module logger, [logging.getLogger('foxglove.db.migrations')]. *)
Definition logger : string := "foxglove.db.migrations".

(** ** The database *)

(** The four text columns of a [migrations] row: the uniqueness tuple. *)
Record ident := {
  patch_name : string;
  auto_ref_col : string;
  sql_section_name : string;
  sql_section_content : string
}.

#[global] Instance ident_eq_dec : EqDecision ident.
Proof. solve_decision. Defined.

(** A [migrations] row: the [serial] key and the identity.  The [ts]
    column is assigned by the server and read by nothing here. *)
Record row := { id : nat; row_ident : ident }.

#[global] Instance row_eq_dec : EqDecision row.
Proof. solve_decision. Defined.

(** A database state: the ledger table ([None] while the table does not
    exist) and the application's tables, each a list of rows. *)
Record db := {
  migrations : option (list row);
  tables : gmap string (list string)
}.

#[global] Instance db_eq_dec : EqDecision db.
Proof. solve_decision. Defined.

Definition migrations_table : string :=
  "create table if not exists migrations (id serial primary key, patch_name varchar(255) not null, auto_ref varchar(255) not null, sql_section_name varchar(255) not null, sql_section_content text not null, ts timestamptz not null default current_timestamp, unique (patch_name, auto_ref, sql_section_name, sql_section_content));".

Definition lock_migrations : string := "lock table migrations nowait".

(** A connection, known by the DSN it was opened on. *)
Record connection := { conn_dsn : string }.

#[global] Instance connection_eq_dec : EqDecision connection.
Proof. solve_decision. Defined.

(** What [glove.pg] can hold: [None], the application's pool, or the
    [DummyPgPool] wrapped around one connection. *)
Inductive pg_handle :=
  | PgNone
  | PgPool (name : string)
  | DummyPgPool (conn : connection).

#[global] Instance pg_handle_eq_dec : EqDecision pg_handle.
Proof. solve_decision. Defined.

(** The keyword arguments a patch function is called with. *)
Record kwargs := {
  kw_conn : connection;
  kw_live : bool;
  kw_args : gmap string string;
  kw_logger : string
}.

#[global] Instance kwargs_eq_dec : EqDecision kwargs.
Proof. solve_decision. Defined.

(** Ghost trace of what the runner does to the outside: connection and
    transaction calls, the call of a patch function and the completion
    of what it ran.  [EvWait] marks a statement that had to wait for
    another session's transaction to end, [EvAborted] a statement of a
    patch body that failed and left the transaction in the failed
    state. *)
Inductive event :=
  | EvConnect (dsn : string)
  | EvBegin
  | EvExecute (sql : string)
  | EvFetchval (i : ident) (r : result (option nat))
  | EvCommit
  | EvRollback
  | EvClose
  | EvCall (name : string) (kw : kwargs) (pg : option pg_handle)
  | EvDone (name : string) (r : result pyval)
  | EvWait
  | EvAborted.

(** ** Patches *)

(** One run of a patch body: the application tables it leaves in the
    open transaction, what it logged, how it ended, and whether one of
    its statements failed on the server, which leaves the transaction in
    the failed state whether or not the body let the error out. *)
Record body_run := {
  br_tables : gmap string (list string);
  br_log : list log_record;
  br_outcome : result pyval;
  br_aborted : bool
}.

(** A patch body reads its keyword arguments and the ambient [glove.pg],
    and works on the application's tables through the connection.  The
    [migrations] table and the begin and end of the transaction belong
    to the runner. *)
Definition body := kwargs -> option pg_handle -> gmap string (list string) -> body_run.

(** A callable with a [__name__]: [def name(...)], [async def name(...)],
    or a plain callable that hands back the coroutine of an [async def]
    without awaiting it (a [def] wrapped around an [async def], an object
    whose [__call__] is [async def]); [asyncio.iscoroutinefunction] is
    false for the last.  A callable without [__name__], for which line 60
    raises [AttributeError], is not among them. *)
Inductive pyfunc :=
  | Def (name : string) (b : body)
  | AsyncDef (name : string) (b : body)
  | AsyncCallable (name : string) (b : body).

(** [f.__name__] *)
Definition fn_name (f : pyfunc) : string :=
  match f with Def n _ | AsyncDef n _ | AsyncCallable n _ => n end.

(** [str] of a coroutine object, without its address. *)
Definition coroutine_repr (name : string) : string :=
  "<coroutine object " +:+ name +:+ ">".

(** The body of the callable that only builds a coroutine: nothing
    happens and the coroutine object is the value. *)
Definition hands_back_coroutine (name : string) : body := fun _ _ t =>
  {| br_tables := t; br_log := []; br_outcome := Returned (PyObject (coroutine_repr name));
     br_aborted := false |}.

(** What [run_patch] gets to run of a function: its body, or for an
    [AsyncCallable] the mere building of the coroutine. *)
Definition fn_body (f : pyfunc) : body :=
  match f with
  | Def _ b | AsyncDef _ b => b
  | AsyncCallable n _ => hands_back_coroutine n
  end.

(** The work the patch was written to do. *)
Definition fn_work (f : pyfunc) : body :=
  match f with Def _ b | AsyncDef _ b | AsyncCallable _ b => b end.

(** [asyncio.iscoroutinefunction(f)] *)
Definition iscoroutinefunction (f : pyfunc) : bool :=
  match f with AsyncDef _ _ => true | _ => false end.

(** The fields of [Patch] the runner reads. *)
Record Patch := {
  func : pyfunc;
  auto_ref : option string;
  auto_ref_sql_section : option string
}.

Record BaseSettings := {
  pg_dsn : string;
  sql : gmap string string
}.

(** ** The world *)

Record world := {
  committed : db;             (* what this session finds committed; what other
                                 sessions publish while a call runs is not followed *)
  locked_elsewhere : bool;    (* another session's open transaction holds a lock on
                                 [migrations]; when the table is not in [committed],
                                 that transaction is the one creating it *)
  elsewhere_commits : bool;   (* how that transaction ends when it is waited for *)
  serial : nat;               (* last value of the [id] sequence; a sequence ignores
                                 rollback but goes with the table it was made for *)
  tx_aborted : bool;          (* this session's open transaction is in the failed state *)
  glove_pg : option pg_handle;(* the attribute [glove.pg]; [None] while unset *)
  log : list log_record;
  trace : list event
}.

Definition emit (e : event) (w : world) : world :=
  {| committed := committed w; locked_elsewhere := locked_elsewhere w;
     elsewhere_commits := elsewhere_commits w; serial := serial w;
     tx_aborted := tx_aborted w; glove_pg := glove_pg w; log := log w;
     trace := trace w ++ [e] |}.

Definition say_all (rs : list log_record) (w : world) : world :=
  {| committed := committed w; locked_elsewhere := locked_elsewhere w;
     elsewhere_commits := elsewhere_commits w; serial := serial w;
     tx_aborted := tx_aborted w; glove_pg := glove_pg w; log := log w ++ rs;
     trace := trace w |}.

Definition say (r : log_record) (w : world) : world := say_all [r] w.

(** [glove.pg = v] *)
Definition set_glove_pg (v : pg_handle) (w : world) : world :=
  {| committed := committed w; locked_elsewhere := locked_elsewhere w;
     elsewhere_commits := elsewhere_commits w; serial := serial w;
     tx_aborted := tx_aborted w; glove_pg := Some v; log := log w;
     trace := trace w |}.

(** [getattr(glove, 'pg', None)] *)
Definition getattr_glove_pg (w : world) : pg_handle :=
  match glove_pg w with Some v => v | None => PgNone end.

Definition set_serial (n : nat) (w : world) : world :=
  {| committed := committed w; locked_elsewhere := locked_elsewhere w;
     elsewhere_commits := elsewhere_commits w; serial := n;
     tx_aborted := tx_aborted w; glove_pg := glove_pg w; log := log w;
     trace := trace w |}.

Definition nextval (w : world) : nat * world := (S (serial w), set_serial (S (serial w)) w).

Definition set_committed (d : db) (w : world) : world :=
  {| committed := d; locked_elsewhere := locked_elsewhere w;
     elsewhere_commits := elsewhere_commits w; serial := serial w;
     tx_aborted := tx_aborted w; glove_pg := glove_pg w; log := log w;
     trace := trace w |}.

Definition set_tx_aborted (b : bool) (w : world) : world :=
  {| committed := committed w; locked_elsewhere := locked_elsewhere w;
     elsewhere_commits := elsewhere_commits w; serial := serial w;
     tx_aborted := b; glove_pg := glove_pg w; log := log w;
     trace := trace w |}.

(** The other session's transaction has ended. *)
Definition released_elsewhere (w : world) : world :=
  {| committed := committed w; locked_elsewhere := false;
     elsewhere_commits := elsewhere_commits w; serial := serial w;
     tx_aborted := tx_aborted w; glove_pg := glove_pg w; log := log w;
     trace := trace w |}.

(** The events a call added: the trace only grows. *)
Definition new_events (w w' : world) : list event :=
  drop (length (trace w)) (trace w').

Definition new_log (w w' : world) : list log_record :=
  drop (length (log w)) (log w').

(** ** The connection *)

(** Modelled from the spec: [AsyncPgContext] of [foxglove/db/utils.py],
    the scoped connection resource, "acquired at orchestration start,
    guaranteed released (committed or rolled back) on every exit path".
    Entering connects; leaving closes the connection, and the server
    drops whatever transaction is still open on it. *)
Definition aenter (dsn : string) (w : world) : connection * world :=
  ({| conn_dsn := dsn |}, emit (EvConnect dsn) w).

Definition aexit (w : world) : world := set_tx_aborted false (emit EvClose w).

(** [tr = conn.transaction(); await tr.start()]: the transaction works
    on its own copy of the committed state. *)
Definition tr_start (w : world) : db * world :=
  (committed w, set_tx_aborted false (emit EvBegin w)).

(** [await tr.commit()] publishes the copy, unless the transaction is in
    the failed state: the server then answers the commit with a
    rollback, and reports no error. *)
Definition tr_commit (tx : db) (w : world) : world :=
  let w := emit EvCommit w in
  set_tx_aborted false (if tx_aborted w then w else set_committed tx w).

(** [await tr.rollback()] throws it away. *)
Definition tr_rollback (w : world) : world := set_tx_aborted false (emit EvRollback w).

(** [await conn.execute(migrations_table)]: [create table if not exists]
    is transactional DDL.  On a table that is there it does nothing.  On
    a table another open transaction is creating it waits for that
    transaction: if that one commits the statement fails on the catalogue's
    unique index, if it rolls back the table is made here.  A table made
    here comes with a new sequence. *)
Definition create_migrations_table (tx : db) (w : world) : result unit * db * world :=
  let w := emit (EvExecute migrations_table) w in
  let made := {| migrations := Some []; tables := tables tx |} in
  match migrations tx with
  | Some _ => (Returned tt, tx, w)
  | None =>
      if locked_elsewhere w then
        let w := released_elsewhere (emit EvWait w) in
        if elsewhere_commits w then
          (Raised {| exn_class := UniqueViolationError;
                     exn_msg := "duplicate key value violates unique constraint" |},
           tx, set_tx_aborted true w)
        else (Returned tt, made, set_serial 0 w)
      else (Returned tt, made, set_serial 0 w)
  end.

(** [await conn.execute('lock table migrations nowait')]: fails at once
    instead of waiting when somebody else holds the table. *)
Definition lock_table_nowait (w : world) : result unit * world :=
  let w := emit (EvExecute lock_migrations) w in
  if locked_elsewhere w
  then (Raised {| exn_class := LockNotAvailableError;
                  exn_msg := "could not obtain lock on relation migrations" |},
        set_tx_aborted true w)
  else (Returned tt, w).

(** What a [varchar(n)] column keeps of a text: the text itself up to
    [n] characters, its first [n] characters when all the excess is
    spaces, and nothing, the statement failing, otherwise. *)
Definition store_varchar (n : nat) (s : string) : option string :=
  let '(kept, excess) := split_chars n s in
  if all_spaces excess then Some kept else None.

(** What the table keeps of an identity tuple: three [varchar(255)]
    columns and one [text] column. *)
Definition store_ident (i : ident) : option ident :=
  match store_varchar 255 (patch_name i), store_varchar 255 (auto_ref_col i),
        store_varchar 255 (sql_section_name i) with
  | Some name, Some ref, Some section =>
      Some {| patch_name := name; auto_ref_col := ref; sql_section_name := section;
              sql_section_content := sql_section_content i |}
  | _, _, _ => None
  end.

(** A text of at most 255 characters. *)
Definition fits_varchar (s : string) : bool := Nat.leb (char_length s) 255.

Definition fits_columns (i : ident) : bool :=
  fits_varchar (patch_name i) && fits_varchar (auto_ref_col i)
  && fits_varchar (sql_section_name i).

Definition recorded (i : ident) (rows : list row) : bool :=
  existsb (fun r => bool_decide (row_ident r = i)) rows.

Definition statement_failed (c : exc_class) (msg : string) : result (option nat) :=
  Raised {| exn_class := c; exn_msg := msg |}.

(** The statement behind [conn.fetchval]:
    [insert into migrations (...) values ($1, $2, $3, $4)
     on conflict (...) do nothing returning id].
    [Some id] when the row went in, [None] when the unique constraint
    already has the tuple as the columns keep it.  The sequence advances
    either way.  In a transaction in the failed state every statement is
    refused. *)
Definition insert_migration (i : ident) (tx : db) (w : world)
  : result (option nat) * db * world :=
  if tx_aborted w then
    let r := statement_failed InFailedSQLTransactionError
               "current transaction is aborted, commands ignored until end of transaction block" in
    (r, tx, emit (EvFetchval i r) w)
  else
    match store_ident i with
    | None =>
        let r := statement_failed StringDataRightTruncationError
                   "value too long for type character varying(255)" in
        (r, tx, emit (EvFetchval i r) (set_tx_aborted true w))
    | Some stored =>
        match migrations tx with
        | None =>
            let r := statement_failed PostgresError "relation migrations does not exist" in
            (r, tx, emit (EvFetchval i r) (set_tx_aborted true w))
        | Some rows =>
            let '(new_id, w) := nextval w in
            if recorded stored rows then
              (Returned None, tx, emit (EvFetchval i (Returned None)) w)
            else
              (Returned (Some new_id),
               {| migrations := Some (rows ++ [{| id := new_id; row_ident := stored |}]);
                  tables := tables tx |},
               emit (EvFetchval i (Returned (Some new_id))) w)
        end
    end.

(** ** Calling a patch function *)

(** Running a body to completion inside the open transaction. *)
Definition run_body (name : string) (b : body) (kw : kwargs) (tx : db) (w : world)
  : result pyval * db * world :=
  let r := b kw (glove_pg w) (tables tx) in
  let tx := {| migrations := migrations tx; tables := br_tables r |} in
  let w := say_all (br_log r) w in
  let w := if br_aborted r then emit EvAborted (set_tx_aborted true w) else w in
  (br_outcome r, tx, emit (EvDone name (br_outcome r)) w).

(** A coroutine object: a body that has not started yet. *)
Definition coroutine := db -> world -> result pyval * db * world.

(** What a call expression evaluates to. *)
Inductive pyobj :=
  | Value (v : pyval)
  | Coroutine (name : string) (c : coroutine).

(** The object as a value of [result]: a coroutine nobody awaited is
    just an object. *)
Definition as_value (o : pyobj) : pyval :=
  match o with
  | Value v => v
  | Coroutine name _ => PyObject (coroutine_repr name)
  end.

(** [f( **kwargs)]: a [def] runs its body right away; an [async def]
    builds the coroutine and runs nothing; an [AsyncCallable] runs the
    plain code that builds the coroutine of its work and hands it back. *)
Definition call (f : pyfunc) (kw : kwargs) (tx : db) (w : world)
  : result pyobj * db * world :=
  let w := emit (EvCall (fn_name f) kw (glove_pg w)) w in
  match f with
  | Def n b =>
      match run_body n b kw tx w with
      | (Returned v, tx, w) => (Returned (Value v), tx, w)
      | (Raised e, tx, w) => (Raised e, tx, w)
      end
  | AsyncDef n b => (Returned (Coroutine n (run_body n b kw)), tx, w)
  | AsyncCallable n b =>
      match run_body n (hands_back_coroutine n) kw tx w with
      | (_, tx, w) => (Returned (Coroutine n (run_body n b kw)), tx, w)
      end
  end.

(** [await o] drives a coroutine to its end; anything else is no
    awaitable. *)
Definition await (o : pyobj) (tx : db) (w : world) : result pyval * db * world :=
  match o with
  | Coroutine _ c => c tx w
  | Value _ =>
      (Raised {| exn_class := TypeError;
                 exn_msg := "object can't be used in 'await' expression" |}, tx, w)
  end.

(** [dict(conn=conn, live=live, args={'__auto_migrations__': 'true'}, logger=logger)] *)
Definition patch_kwargs (conn : connection) (live : bool) : kwargs :=
  {| kw_conn := conn; kw_live := live;
     kw_args := {[ "__auto_migrations__" := "true" ]};
     kw_logger := logger |}.

(** [run_patch(conn, patch, name, live)] *)
Definition run_patch (conn : connection) (patch : Patch) (name : string) (live : bool)
    (tx : db) (w : world) : result bool * db * world :=
  let kw := patch_kwargs conn live in
  let w := say (info (banner (" running " +:+ name +:+ " "))) w in
  (* try: *)
  let '(r, tx, w) :=
    if iscoroutinefunction (func patch) then
      (* result = await patch.func( **kwargs) *)
      match call (func patch) kw tx w with
      | (Returned o, tx, w) => await o tx w
      | (Raised e, tx, w) => (Raised e, tx, w)
      end
    else
      (* result = patch.func( **kwargs) *)
      match call (func patch) kw tx w with
      | (Returned o, tx, w) => (Returned (as_value o), tx, w)
      | (Raised e, tx, w) => (Raised e, tx, w)
      end in
  match r with
  | Returned res =>
      let w := match res with
               | PyNone => w
               | _ => say (info ("result: " +:+ py_str res)) w
               end in
      (* else: *)
      (Returned true, tx, say (info (banner (" " +:+ name +:+ " succeeded "))) w)
  | Raised e =>
      (* except BaseException: *)
      if issubclass (exn_class e) BaseException then
        let w := say (info (banner (" " +:+ name +:+ " failed "))) w in
        let w := say (exception ("Error running " +:+ fn_name (func patch)
                                 +:+ " migration patch") e) w in
        (Returned false, tx, w)
      else (Raised e, tx, w)
  end.

(** ** The orchestrator *)

Section Runner.

(** [get_sql_section] of [foxglove/db/patches.py], the SQL section
    provider: the text of a named section of [settings.sql], or an
    exception when it cannot find it. *)
Variable get_sql_section : string -> gmap string string -> result string.

(** How the [for] loop of [run_migrations] ends. *)
Inductive loop_exit :=
  | Completed (count up_to_date : Z) (tx : db)  (* fell off the end *)
  | Failed                                      (* a patch failed: [return 0] *)
  | Escaped (e : exn).                          (* an exception left the loop *)

(** The section text of a patch: lines 61-64. *)
Definition resolve_section (settings : BaseSettings) (patch : Patch)
  : result (option string) :=
  match auto_ref_sql_section patch with
  | Some name =>
      if truthy (Some name) then
        match get_sql_section name (sql settings) with
        | Returned s => Returned (Some s)
        | Raised e => Raised e
        end
      else Returned None
  | None => Returned None
  end.

(** The four values bound to [$1 .. $4]: lines 74-77. *)
Definition identity (patch : Patch) (content : option string) : ident :=
  {| patch_name := fn_name (func patch);
     auto_ref_col := match auto_ref patch with Some s => s | None => EmptyString end;
     sql_section_name := or_else (auto_ref_sql_section patch) "-";
     sql_section_content := or_else content "-" |}.

(** The body of [for patch in migration_patches], lines 59-90. *)
Fixpoint migrate (settings : BaseSettings) (conn : connection) (default_pg : pg_handle)
    (live : bool) (ps : list Patch) (count up_to_date : Z) (tx : db) (w : world)
  : loop_exit * world :=
  match ps with
  | [] => (Completed count up_to_date tx, w)
  | patch :: rest =>
      let patch_name := fn_name (func patch) in
      match resolve_section settings patch with
      | Raised e => (Escaped e, w)
      | Returned sql_section_content =>
          match insert_migration (identity patch sql_section_content) tx w with
          | (Raised e, _, w) => (Escaped e, w)
          | (Returned None, tx, w) =>
              migrate settings conn default_pg live rest count (up_to_date + 1) tx w
          | (Returned (Some _), tx, w) =>
              match run_patch conn patch patch_name live tx w with
              | (Raised e, _, w) => (Escaped e, w)
              | (Returned false, _, w) =>
                  let w := say (warning ("patch failed, rolling back all " +:+ fmt_d count
                                  +:+ " migration patches in this session")) w in
                  let w := tr_rollback w in
                  let w := set_glove_pg default_pg w in
                  (Failed, w)
              | (Returned true, tx, w) =>
                  migrate settings conn default_pg live rest (count + 1) up_to_date tx w
              end
          end
      end
  end.

(** [run_migrations(settings, patches, live)] *)
Definition run_migrations (settings : BaseSettings) (patches : list Patch) (live : bool)
    (w : world) : result Z * world :=
  let migration_patches := List.filter (fun p => truthy (auto_ref p)) patches in
  match migration_patches with
  | [] => (Returned 0, w)
  | _ :: _ =>
      let '(conn, w) := aenter (pg_dsn settings) w in
      let '(tx, w) := tr_start w in
      match create_migrations_table tx w with
      | (Raised e, _, w) => (Raised e, aexit w)
      | (Returned _, tx, w) =>
          match lock_table_nowait w with
          | (Raised e, w) =>
              if issubclass (exn_class e) LockNotAvailableError then
                let w := say (debug "another transaction has locked migrations, skipping migrations here") w in
                let w := tr_rollback w in
                (Returned 0, aexit w)
              else (Raised e, aexit w)
          | (Returned _, w) =>
              let default_pg := getattr_glove_pg w in
              let w := set_glove_pg (DummyPgPool conn) w in
              let w := say (info ("checking " +:+ fmt_d (Z.of_nat (length migration_patches))
                                  +:+ " migration patches...")) w in
              match migrate settings conn default_pg live migration_patches 0 0 tx w with
              | (Escaped e, w) => (Raised e, aexit w)
              | (Failed, w) => (Returned 0, aexit w)
              | (Completed count up_to_date tx, w) =>
                  let w := set_glove_pg default_pg w in
                  let w :=
                    if live then
                      say (info (fmt_d count +:+ " migration patches run, " +:+ fmt_d up_to_date
                                 +:+ " already up to date ✓")) (tr_commit tx w)
                    else
                      say (info (fmt_d count +:+ " migration patches run, " +:+ fmt_d up_to_date
                                 +:+ " already up to date, not live rolling back")) (tr_rollback w) in
                  (Returned count, aexit w)
              end
          end
      end
  end.

End Runner.

(** ** Vocabulary of the properties *)

(** A patch takes part in automatic migration: line 38. *)
Definition eligible (p : Patch) : bool := truthy (auto_ref p).

(** What the body of [p] does when [run_patch] calls it in transaction
    state [tx] and world [w]. *)
Definition body_run_of (conn : connection) (live : bool) (p : Patch) (tx : db) (w : world)
  : body_run :=
  fn_body (func p) (patch_kwargs conn live) (glove_pg w) (tables tx).

(** What the work of [p] would do there, were it run. *)
Definition work_of (conn : connection) (live : bool) (p : Patch) (tx : db) (w : world)
  : body_run :=
  fn_work (func p) (patch_kwargs conn live) (glove_pg w) (tables tx).

Definition is_returned {A} (r : result A) : bool :=
  match r with Returned _ => true | Raised _ => false end.

(** The event of a body ending in an exception. *)
Definition body_raised (e : event) : bool :=
  match e with EvDone _ (Raised _) => true | _ => false end.

(** The event of a body being entered. *)
Definition body_called (e : event) : bool :=
  match e with EvCall _ _ _ => true | _ => false end.

Definition is_rollback (e : event) : bool :=
  match e with EvRollback => true | _ => false end.

Definition is_commit (e : event) : bool :=
  match e with EvCommit => true | _ => false end.

(** The event of a body leaving the transaction in the failed state. *)
Definition tx_failed (e : event) : bool :=
  match e with EvAborted => true | _ => false end.


(** The rows of the ledger as other sessions see it; none while the
    table does not exist. *)
Definition ledger (d : db) : list row :=
  match migrations d with Some rows => rows | None => [] end.

Section Identities.

Variable get_sql_section : string -> gmap string string -> result string.

(** The identity tuple the loop computes for a patch, when the section
    provider does not raise. *)
Definition identity_of (settings : BaseSettings) (p : Patch) : option ident :=
  match resolve_section get_sql_section settings p with
  | Returned content => Some (identity p content)
  | Raised _ => None
  end.

Fixpoint identities (settings : BaseSettings) (ps : list Patch) : option (list ident) :=
  match ps with
  | [] => Some []
  | p :: rest =>
      match identity_of settings p, identities settings rest with
      | Some i, Some js => Some (i :: js)
      | _, _ => None
      end
  end.

End Identities.

(** The names of the patch functions entered, in order. *)
Definition called_names (evs : list event) : list string :=
  omap (fun e => match e with EvCall name _ _ => Some name | _ => None end) evs.

(** ** The exit paths of [run_migrations] *)

(** The table is there for this session. *)
Definition table_visible (w : world) : bool :=
  match migrations (committed w) with Some _ => true | None => false end.

(** The [create table] of this call has to wait: the table is being
    created by the session that holds it. *)
Definition waits (w : world) : bool := negb (table_visible w) && locked_elsewhere w.

(** The call gets past the [create table] and the lock. *)
Definition enters (w : world) : bool :=
  if table_visible w then negb (locked_elsewhere w)
  else negb (locked_elsewhere w && elsewhere_commits w).

(** The four calls a run makes before it knows whether it holds the
    lock, when nothing makes it wait: lines 44-50. *)
Definition opening (settings : BaseSettings) : list event :=
  [EvConnect (pg_dsn settings); EvBegin; EvExecute migrations_table;
   EvExecute lock_migrations].

(** The same with the wait, where there is one. *)
Definition prologue (settings : BaseSettings) (w : world) : list event :=
  [EvConnect (pg_dsn settings); EvBegin; EvExecute migrations_table]
  ++ (if waits w then [EvWait] else []) ++ [EvExecute lock_migrations].

(** The transaction and the world on entry to the [for] loop, for a run
    that got the lock: lines 44-58. *)
Definition loop_entry (settings : BaseSettings) (n : nat) (w : world) : db * world :=
  let '(conn, w) := aenter (pg_dsn settings) w in
  let '(tx, w) := tr_start w in
  let '(_, tx, w) := create_migrations_table tx w in
  let w := snd (lock_table_nowait w) in
  let w := set_glove_pg (DummyPgPool conn) w in
  (tx, say (info ("checking " +:+ fmt_d (Z.of_nat n) +:+ " migration patches...")) w).

(** What follows a loop that fell off its end: lines 92-98 and the end
    of the [async with] block. *)
Definition finish (live : bool) (default_pg : pg_handle) (count up_to_date : Z)
    (tx : db) (w : world) : world :=
  let w := set_glove_pg default_pg w in
  let w :=
    if live then
      say (info (fmt_d count +:+ " migration patches run, " +:+ fmt_d up_to_date
                 +:+ " already up to date ✓")) (tr_commit tx w)
    else
      say (info (fmt_d count +:+ " migration patches run, " +:+ fmt_d up_to_date
                 +:+ " already up to date, not live rolling back")) (tr_rollback w) in
  aexit w.

(** An event of the loop that is neither a failed body nor the end of
    the transaction. *)
Definition quiet (e : event) : Prop :=
  body_raised e = false /\ is_rollback e = false /\ is_commit e = false.

(** The ways out of [run_migrations], with what each leaves behind. *)
Inductive exit_path (settings : BaseSettings) (live : bool) (w : world)
    (res : result Z) (w' : world) : Prop :=
  | NothingToDo :
      res = Returned 0 -> w' = w -> exit_path settings live w res w'
  | CreateFailed (e : exn) :
      enters w = false -> waits w = true -> res = Raised e ->
      committed w' = committed w -> glove_pg w' = glove_pg w ->
      new_events w w' =
        [EvConnect (pg_dsn settings); EvBegin; EvExecute migrations_table; EvWait; EvClose] ->
      exit_path settings live w res w'
  | LockedElsewhere :
      enters w = false -> waits w = false -> res = Returned 0 ->
      committed w' = committed w -> glove_pg w' = glove_pg w ->
      new_events w w' = opening settings ++ [EvRollback; EvClose] ->
      exit_path settings live w res w'
  | PatchFailed (evs : list event) :
      enters w = true -> res = Returned 0 ->
      committed w' = committed w -> glove_pg w' = Some (getattr_glove_pg w) ->
      new_events w w' = prologue settings w ++ evs ++ [EvClose] ->
      Exists (fun e => body_raised e = true) evs ->
      Exists (fun e => is_rollback e = true) evs ->
      Forall (fun e => is_commit e = false) evs ->
      exit_path settings live w res w'
  | ExceptionEscaped (e : exn) (evs : list event) :
      enters w = true -> res = Raised e ->
      committed w' = committed w ->
      glove_pg w' = Some (DummyPgPool {| conn_dsn := pg_dsn settings |}) ->
      new_events w w' = prologue settings w ++ evs ++ [EvClose] ->
      Forall quiet evs ->
      exit_path settings live w res w'
  | Committed (count : Z) (evs : list event) :
      live = true -> enters w = true -> res = Returned count ->
      glove_pg w' = Some (getattr_glove_pg w) ->
      new_events w w' = prologue settings w ++ evs ++ [EvCommit; EvClose] ->
      Forall quiet evs ->
      exit_path settings live w res w'
  | DryRun (count : Z) (evs : list event) :
      live = false -> enters w = true -> res = Returned count ->
      committed w' = committed w -> glove_pg w' = Some (getattr_glove_pg w) ->
      new_events w w' = prologue settings w ++ evs ++ [EvRollback; EvClose] ->
      Forall quiet evs ->
      exit_path settings live w res w'.

(** ** Vocabulary of the trace *)

(** [[p.func.__name__ for p in ps]] *)
Definition names_of (ps : list Patch) : list string := map (fun p => fn_name (func p)) ps.

Definition nonempty (s : string) : bool := negb (String.eqb s EmptyString).

(** An insert whose section name and section text are both non-empty:
    what the [or '-'] of lines 76-77 is there for. *)
Definition insert_well_formed (e : event) : bool :=
  match e with
  | EvFetchval i _ => nonempty (sql_section_name i) && nonempty (sql_section_content i)
  | _ => true
  end.

(** A body entered with the keyword arguments of [run_patch] for this
    connection while [glove.pg] holds the [DummyPgPool] of that same
    connection. *)
Definition call_in_transaction (conn : connection) (live : bool) (e : event) : bool :=
  match e with
  | EvCall _ kw pg =>
      bool_decide (kw = patch_kwargs conn live) && bool_decide (pg = Some (DummyPgPool conn))
  | _ => true
  end.

(** The events the [for] loop can produce. *)
Definition loop_event (e : event) : bool :=
  match e with
  | EvFetchval _ _ | EvCall _ _ _ | EvDone _ _ | EvAborted | EvRollback => true
  | _ => false
  end.

(** What may happen between the lock statement and the close. *)
Definition statement_event (e : event) : bool := loop_event e || is_commit e.

(** The events after the loop, by the way the loop ended. *)
Definition closing (live : bool) (ex : loop_exit) : list event :=
  match ex with
  | Completed _ _ _ => [if live then EvCommit else EvRollback; EvClose]
  | _ => [EvClose]
  end.

(** The events [run_patch] adds for a body run. *)
Definition patch_events (name : string) (kw : kwargs) (pg : option pg_handle) (r : body_run)
  : list event :=
  [EvCall name kw pg] ++ (if br_aborted r then [EvAborted] else [])
  ++ [EvDone name (br_outcome r)].

(** The table has the tuple, as the columns keep it. *)
Definition known (rows : list row) (i : ident) : Prop :=
  exists stored, store_ident i = Some stored /\ recorded stored rows = true.

(** ** Sample data: the patches of [tests/test_patches.py] *)

(** A section provider over a plain mapping: the text stored under the
    name, [RuntimeError] when there is none. *)
Definition lookup_section (name : string) (source : gmap string string) : result string :=
  match source !! name with
  | Some s => Returned s
  | None => Raised {| exn_class := RuntimeError; exn_msg := "section not found" |}
  end.

(** [async def ok_patch(logger, **kwargs): logger.info('running ok_patch')] *)
Definition ok_body : body := fun _ _ t =>
  {| br_tables := t; br_log := [info "running ok_patch"]; br_outcome := Returned PyNone;
     br_aborted := false |}.

(** A patch that inserts a row and returns ['hello']. *)
Definition hello_body : body := fun _ _ t =>
  {| br_tables := <[ "organisations" := ["acme"] ]> t; br_log := [];
     br_outcome := Returned (PyStr "hello"); br_aborted := false |}.

(** [async def error_patch( **kwargs): raise ValueError('broken')] *)
Definition error_body : body := fun _ _ t =>
  {| br_tables := t; br_log := [];
     br_outcome := Raised {| exn_class := ValueError; exn_msg := "broken" |};
     br_aborted := false |}.

(** A body interrupted from outside: not an [Exception]. *)
Definition interrupted_body : body := fun _ _ t =>
  {| br_tables := t; br_log := [];
     br_outcome := Raised {| exn_class := KeyboardInterrupt; exn_msg := EmptyString |};
     br_aborted := false |}.

(** A body that reports trouble through its return value only. *)
Definition false_body : body := fun _ _ t =>
  {| br_tables := t; br_log := []; br_outcome := Returned (PyBool false);
     br_aborted := false |}.

(** A body one of whose statements fails on the server and which
    catches the error and carries on. *)
Definition swallow_body : body := fun _ _ t =>
  {| br_tables := t; br_log := [info "could not insert, never mind"];
     br_outcome := Returned PyNone; br_aborted := true |}.

(** A body that needs the organisation an earlier patch inserts. *)
Definition dependent_body : body := fun _ _ t =>
  match t !! "organisations" with
  | Some _ =>
      {| br_tables := <[ "users" := ["alice"] ]> t; br_log := [];
         br_outcome := Returned PyNone; br_aborted := false |}
  | None =>
      {| br_tables := t; br_log := [];
         br_outcome := Raised {| exn_class := ValueError; exn_msg := "no organisation" |};
         br_aborted := false |}
  end.

Definition ok_patch : Patch :=
  {| func := AsyncDef "ok_patch" ok_body; auto_ref := Some "foobar";
     auto_ref_sql_section := None |}.

Definition hello_patch : Patch :=
  {| func := Def "hello_patch" hello_body; auto_ref := Some "foobar";
     auto_ref_sql_section := None |}.

Definition error_patch : Patch :=
  {| func := AsyncDef "error_patch" error_body; auto_ref := Some "foobar";
     auto_ref_sql_section := None |}.

Definition interrupted_patch : Patch :=
  {| func := Def "interrupted_patch" interrupted_body; auto_ref := Some "foobar";
     auto_ref_sql_section := None |}.

Definition false_patch : Patch :=
  {| func := Def "false_patch" false_body; auto_ref := Some "foobar";
     auto_ref_sql_section := None |}.

Definition swallow_patch : Patch :=
  {| func := Def "swallow_patch" swallow_body; auto_ref := Some "foobar";
     auto_ref_sql_section := None |}.

Definition dependent_patch : Patch :=
  {| func := Def "dependent_patch" dependent_body; auto_ref := Some "foobar";
     auto_ref_sql_section := None |}.

(** The work of [hello_patch] behind a callable that hands its coroutine
    back without awaiting it. *)
Definition unawaited_patch : Patch :=
  {| func := AsyncCallable "unawaited_patch" hello_body; auto_ref := Some "foobar";
     auto_ref_sql_section := None |}.

(** A patch run by hand only: no [auto_ref]. *)
Definition manual_patch : Patch :=
  {| func := Def "manual_patch" hello_body; auto_ref := None;
     auto_ref_sql_section := None |}.

(** [ok_patch] tied to a section that happens to be called ["-"]. *)
Definition dash_patch : Patch :=
  {| func := AsyncDef "ok_patch" ok_body; auto_ref := Some "foobar";
     auto_ref_sql_section := Some "-" |}.

(** [ok_patch] tied to the section ["views"]. *)
Definition views_patch : Patch :=
  {| func := AsyncDef "ok_patch" ok_body; auto_ref := Some "foobar";
     auto_ref_sql_section := Some "views" |}.

(** A patch whose section is missing from [settings.sql]. *)
Definition orphan_patch : Patch :=
  {| func := AsyncDef "orphan_patch" ok_body; auto_ref := Some "foobar";
     auto_ref_sql_section := Some "missing" |}.

Definition test_settings : BaseSettings :=
  {| pg_dsn := "postgres://postgres@localhost:5432/foxglove_test";
     sql := {[ "-" := "-"; "views" := "-" ]} |}.

Definition test_conn : connection := {| conn_dsn := pg_dsn test_settings |}.

(** A wiped database, nobody holding the lock, the application pool in
    [glove.pg]. *)
Definition wiped : world :=
  {| committed := {| migrations := None; tables := ∅ |};
     locked_elsewhere := false; elsewhere_commits := false; serial := 0;
     tx_aborted := false; glove_pg := Some (PgPool "app"); log := []; trace := [] |}.

(** The same database while another session holds [migrations]. *)
Definition contended : world :=
  {| committed := {| migrations := Some []; tables := ∅ |};
     locked_elsewhere := true; elsewhere_commits := true; serial := 0;
     tx_aborted := false; glove_pg := Some (PgPool "app"); log := []; trace := [] |}.

(** A wiped database on which another session has just created
    [migrations] in a transaction it is about to commit. *)
Definition racing : world :=
  {| committed := {| migrations := None; tables := ∅ |};
     locked_elsewhere := true; elsewhere_commits := true; serial := 0;
     tx_aborted := false; glove_pg := Some (PgPool "app"); log := []; trace := [] |}.

(** The runs of [tests/test_patches.py]. *)

(** [test_run_migrations_error]: a patch that succeeds, then one that raises. *)
Definition failing_batch : result Z * world :=
  run_migrations lookup_section test_settings [hello_patch; error_patch] true wiped.

(** A run while the table is locked by somebody else. *)
Definition contended_run : result Z * world :=
  run_migrations lookup_section test_settings [ok_patch] true contended.

(** [test_run_migrations_ok]: the same list run twice. *)
Definition first_run : result Z * world :=
  run_migrations lookup_section test_settings [ok_patch] true wiped.

Definition second_run : result Z * world :=
  run_migrations lookup_section test_settings [ok_patch] true (snd first_run).

(** The same patch twice in one list, run dry. *)
Definition duplicate_dry_run : result Z * world :=
  run_migrations lookup_section test_settings [ok_patch; ok_patch] false wiped.

(** A patch and one that passes only after it, run dry. *)
Definition dependent_dry_run : result Z * world :=
  run_migrations lookup_section test_settings [hello_patch; dependent_patch] false wiped.

(** A run that starts while the table is being created elsewhere. *)
Definition racing_run : result Z * world :=
  run_migrations lookup_section test_settings [ok_patch] true racing.

(** A patch that leaves the transaction in the failed state, run live twice. *)
Definition swallowed_first_run : result Z * world :=
  run_migrations lookup_section test_settings [swallow_patch] true wiped.

Definition swallowed_second_run : result Z * world :=
  run_migrations lookup_section test_settings [swallow_patch] true (snd swallowed_first_run).

(** A patch without a section and the same patch with the section ["-"]. *)
Definition colliding_run : result Z * world :=
  run_migrations lookup_section test_settings [ok_patch; dash_patch] true wiped.

(** A patch whose section cannot be found. *)
Definition orphan_run : result Z * world :=
  run_migrations lookup_section test_settings [orphan_patch] true wiped.

(** A patch that returns [False]. *)
Definition false_run : result Z * world :=
  run_migrations lookup_section test_settings [false_patch] true wiped.

(** An open transaction on an empty ledger. *)
Definition empty_tx : db := {| migrations := Some []; tables := ∅ |}.

Definition sentinel_row : ident :=
  {| patch_name := "ok_patch"; auto_ref_col := "foobar";
     sql_section_name := "-"; sql_section_content := "-" |}.

Definition interrupt : exn := {| exn_class := KeyboardInterrupt; exn_msg := EmptyString |}.

(** A list with manual patches around the eligible ones. *)
Definition mixed_run : result Z * world :=
  run_migrations lookup_section test_settings
    [manual_patch; hello_patch; manual_patch; ok_patch] true wiped.

(** Two different patches, run live. *)
Definition distinct_live_run : result Z * world :=
  run_migrations lookup_section test_settings [ok_patch; hello_patch] true wiped.

Definition section_not_found : exn :=
  {| exn_class := RuntimeError; exn_msg := "section not found" |}.


(** * Properties *)

Arguments banner : simpl never.
Arguments fmt_d : simpl never.
Arguments String.append : simpl never.
Arguments prologue : simpl never.
Arguments opening : simpl never.

(** ** Frame lemmas *)

Lemma issubclass_BaseException c : issubclass c BaseException = true.
Proof. destruct c; reflexivity. Qed.

Lemma new_events_app w w' evs : trace w' = (trace w ++ evs)%list -> new_events w w' = evs.
Proof. intros H. unfold new_events. rewrite H. apply drop_app_length. Qed.

Lemma new_log_app w w' rs : log w' = (log w ++ rs)%list -> new_log w w' = rs.
Proof. intros H. unfold new_log. rewrite H. apply drop_app_length. Qed.

(** The insert touches the sequence, the state of the transaction and
    the trace, nothing else of the world, and no application table. *)
Lemma insert_migration_frame i tx w r tx' w' :
  insert_migration i tx w = (r, tx', w') ->
  committed w' = committed w /\ locked_elsewhere w' = locked_elsewhere w /\
  glove_pg w' = glove_pg w /\ log w' = log w /\
  trace w' = (trace w ++ [EvFetchval i r])%list /\ tables tx' = tables tx /\
  (is_returned r = true -> tx_aborted w = false /\ tx_aborted w' = false).
Proof.
  unfold insert_migration. intros H.
  destruct (tx_aborted w) eqn:Ha.
  { inversion H; subst; simpl; repeat split; auto; discriminate. }
  destruct (store_ident i) as [stored|].
  2:{ inversion H; subst; simpl; repeat split; auto; discriminate. }
  destruct (migrations tx) as [rows|].
  2:{ inversion H; subst; simpl; repeat split; auto; discriminate. }
  simpl in H. destruct (recorded stored rows); inversion H; subst; simpl; auto 10.
Qed.

(** [run_patch] in closed form: the verdict is whether the body
    returned, the transaction holds what the body left, and the trace
    gains the call, the failure of the transaction if there was one, and
    the completion. *)
Lemma run_patch_eq conn p name live tx w :
  let r := body_run_of conn live p tx w in
  exists w',
    run_patch conn p name live tx w =
      (Returned (is_returned (br_outcome r)),
       {| migrations := migrations tx; tables := br_tables r |}, w') /\
    committed w' = committed w /\ locked_elsewhere w' = locked_elsewhere w /\
    glove_pg w' = glove_pg w /\ serial w' = serial w /\
    tx_aborted w' = tx_aborted w || br_aborted r /\
    trace w' = (trace w ++ patch_events (fn_name (func p)) (patch_kwargs conn live)
                             (glove_pg w) r)%list.
Proof.
  intros r. subst r. unfold body_run_of, patch_events.
  unfold run_patch, call, await, run_body.
  destruct (func p) as [n b|n b|n b]; simpl.
  - set (r := b (patch_kwargs conn live) (glove_pg w) (tables tx)).
    destruct (br_aborted r) eqn:Hab; destruct (br_outcome r) as [v|e] eqn:Hout; simpl.
    all: try rewrite issubclass_BaseException.
    all: try destruct v.
    all: eexists; split; [reflexivity|]; simpl; rewrite <- ?app_assoc, ?orb_true_r, ?orb_false_r;
      auto 10.
  - set (r := b (patch_kwargs conn live) (glove_pg w) (tables tx)).
    destruct (br_aborted r) eqn:Hab; destruct (br_outcome r) as [v|e] eqn:Hout; simpl.
    all: try rewrite issubclass_BaseException.
    all: try destruct v.
    all: eexists; split; [reflexivity|]; simpl; rewrite <- ?app_assoc, ?orb_true_r, ?orb_false_r;
      auto 10.
  - eexists; split; [reflexivity|]; simpl; rewrite <- ?app_assoc, ?orb_false_r; auto 10.
Qed.

Lemma quiet_no_raise evs : Forall quiet evs -> existsb body_raised evs = false.
Proof.
  induction 1 as [|e evs [Hr _] _ IH]; simpl; [reflexivity|].
  rewrite Hr, IH. reflexivity.
Qed.

Lemma quiet_no_rollback evs : Forall quiet evs -> existsb is_rollback evs = false.
Proof.
  induction 1 as [|e evs (_ & Hr & _) _ IH]; simpl; [reflexivity|].
  rewrite Hr, IH. reflexivity.
Qed.

Lemma patch_events_no_commit name kw pg r :
  Forall (fun e => is_commit e = false) (patch_events name kw pg r).
Proof. unfold patch_events. destruct (br_aborted r); repeat constructor. Qed.

Lemma patch_events_quiet name kw pg r v :
  br_outcome r = Returned v -> Forall quiet (patch_events name kw pg r).
Proof.
  intros Hv. unfold patch_events. rewrite Hv.
  destruct (br_aborted r); repeat (constructor; [repeat split; reflexivity|]); constructor.
Qed.

Lemma patch_events_raised name kw pg r e :
  br_outcome r = Raised e ->
  Exists (fun e => body_raised e = true) (patch_events name kw pg r).
Proof.
  intros He. unfold patch_events. rewrite He.
  apply Exists_app. right. apply Exists_app. right. constructor. reflexivity.
Qed.

Section LoopFrame.

Variable get_sql_section : string -> gmap string string -> result string.
Variables (settings : BaseSettings) (conn : connection) (dpg : pg_handle) (live : bool).

(** The loop never commits and never changes what other sessions see.
    It leaves [glove.pg] alone unless a patch fails, in which case it
    has rolled back and put [default_pg] back. *)
Lemma migrate_frame ps : forall c u tx w ex w',
  migrate get_sql_section settings conn dpg live ps c u tx w = (ex, w') ->
  committed w' = committed w /\ locked_elsewhere w' = locked_elsewhere w /\
  exists evs, trace w' = (trace w ++ evs)%list /\
    Forall (fun e => is_commit e = false) evs /\
    match ex with
    | Failed => glove_pg w' = Some dpg /\
                Exists (fun e => body_raised e = true) evs /\
                Exists (fun e => is_rollback e = true) evs
    | _ => glove_pg w' = glove_pg w /\ Forall quiet evs
    end.
Proof.
  induction ps as [|p rest IH]; intros c u tx w ex w' H; simpl in H.
  - inversion H; subst. split; [|split]; auto. exists []. rewrite app_nil_r. auto.
  - destruct (resolve_section get_sql_section settings p) as [content|e].
    2:{ inversion H; subst. split; [|split]; auto. exists []. rewrite app_nil_r. auto. }
    destruct (insert_migration (identity p content) tx w) as [[r tx1] w1] eqn:Hins.
    apply insert_migration_frame in Hins as (Hc1 & Hl1 & Hg1 & _ & Ht1 & _).
    assert (Hq1 : forall r, quiet (EvFetchval (identity p content) r))
      by (intros; repeat split).
    destruct r as [[new_id|]|e].
    + destruct (run_patch_eq conn p (fn_name (func p)) live tx1 w1)
        as (w2 & Hrun & Hc2 & Hl2 & Hg2 & _ & _ & Ht2).
      rewrite Hrun in H. clear Hrun.
      set (evp := patch_events (fn_name (func p)) (patch_kwargs conn live) (glove_pg w1)
                    (body_run_of conn live p tx1 w1)) in *.
      pose proof (patch_events_no_commit (fn_name (func p)) (patch_kwargs conn live)
                    (glove_pg w1) (body_run_of conn live p tx1 w1)) as Hnc.
      destruct (br_outcome (body_run_of conn live p tx1 w1)) as [v|e] eqn:Hout; simpl in H.
      * pose proof (patch_events_quiet (fn_name (func p)) (patch_kwargs conn live)
                      (glove_pg w1) _ _ Hout) as Hqp.
        apply IH in H as (Hc & Hl & evs & Ht & Hcm & Hex).
        split; [congruence|]. split; [congruence|].
        exists ([EvFetchval (identity p content) (Returned (Some new_id))] ++ evp ++ evs).
        split; [rewrite Ht, Ht2, Ht1, <- !app_assoc; reflexivity|].
        split.
        { apply Forall_app. split; [repeat constructor|].
          apply Forall_app. split; assumption. }
        destruct ex.
        -- destruct Hex as [Hg Hq]. split; [congruence|].
           apply Forall_app. split; [repeat constructor; apply Hq1|].
           apply Forall_app. split; assumption.
        -- destruct Hex as (Hg & Hr & Hb). split; [exact Hg|].
           split; apply Exists_app; right; apply Exists_app; right; assumption.
        -- destruct Hex as [Hg Hq]. split; [congruence|].
           apply Forall_app. split; [repeat constructor; apply Hq1|].
           apply Forall_app. split; assumption.
      * pose proof (patch_events_raised (fn_name (func p)) (patch_kwargs conn live)
                      (glove_pg w1) _ _ Hout) as Hrp.
        inversion H; subst; simpl. split; [congruence|]. split; [congruence|].
        exists ([EvFetchval (identity p content) (Returned (Some new_id))] ++ evp
                ++ [EvRollback]).
        split; [rewrite Ht2, Ht1, <- !app_assoc; reflexivity|].
        split.
        { apply Forall_app. split; [repeat constructor|].
          apply Forall_app. split; [assumption|repeat constructor]. }
        split; [reflexivity|]. split.
        -- apply Exists_app. right. apply Exists_app. left. exact Hrp.
        -- apply Exists_app. right. apply Exists_app. right. constructor. reflexivity.
    + apply IH in H as (Hc & Hl & evs & Ht & Hcm & Hex).
      split; [congruence|]. split; [congruence|].
      eexists. split; [rewrite Ht, Ht1, <- !app_assoc; reflexivity|].
      split; [repeat constructor; exact Hcm|].
      destruct ex.
      * destruct Hex as [Hg Hq]. split; [congruence|].
        constructor; [repeat split; reflexivity|exact Hq].
      * destruct Hex as (Hg & Hr & Hb). split; [exact Hg|].
        split; apply Exists_cons_tl; assumption.
      * destruct Hex as [Hg Hq]. split; [congruence|].
        constructor; [repeat split; reflexivity|exact Hq].
    + inversion H; subst. split; [congruence|]. split; [congruence|].
      eexists. split; [rewrite Ht1; reflexivity|].
      split; [repeat constructor|]. split; [congruence|]. repeat constructor.
Qed.

End LoopFrame.

Section RunFrame.

Variable get_sql_section : string -> gmap string string -> result string.

Lemma unlocked_enters w : locked_elsewhere w = false -> enters w = true /\ waits w = false.
Proof.
  intros H. unfold enters, waits. rewrite H. destruct (table_visible w); auto.
Qed.

Lemma unlocked_prologue settings w :
  locked_elsewhere w = false -> prologue settings w = opening settings.
Proof.
  intros H. unfold prologue. rewrite (proj2 (unlocked_enters w H)). reflexivity.
Qed.

Lemma loop_entry_frame settings n w :
  enters w = true ->
  let '(tx, w0) := loop_entry settings n w in
  tx = {| migrations := Some (ledger (committed w)); tables := tables (committed w) |} /\
  committed w0 = committed w /\ locked_elsewhere w0 = false /\
  tx_aborted w0 = false /\
  glove_pg w0 = Some (DummyPgPool {| conn_dsn := pg_dsn settings |}) /\
  trace w0 = (trace w ++ prologue settings w)%list.
Proof.
  unfold enters, prologue, waits, table_visible, loop_entry, create_migrations_table,
    lock_table_nowait, ledger. simpl.
  destruct (migrations (committed w)) as [rows|] eqn:Hm; simpl.
  - destruct (locked_elsewhere w) eqn:Hl; simpl; [discriminate|]. intros _.
    rewrite Hl. simpl. rewrite <- !app_assoc.
    repeat split. destruct (committed w); simpl in *; congruence.
  - destruct (locked_elsewhere w) eqn:Hl; simpl.
    + destruct (elsewhere_commits w) eqn:Hc; simpl; [discriminate|]. intros _.
      rewrite <- !app_assoc. repeat split.
    + intros _. rewrite Hl. simpl. rewrite <- !app_assoc. repeat split. exact Hl.
Qed.

Lemma aexit_frame w :
  committed (aexit w) = committed w /\ glove_pg (aexit w) = glove_pg w /\
  locked_elsewhere (aexit w) = locked_elsewhere w /\ log (aexit w) = log w /\
  trace (aexit w) = trace w ++ [EvClose].
Proof. repeat split. Qed.

Lemma finish_frame live dpg count up tx w :
  let w' := finish live dpg count up tx w in
  committed w' = (if live then (if tx_aborted w then committed w else tx) else committed w) /\
  locked_elsewhere w' = locked_elsewhere w /\
  glove_pg w' = Some dpg /\
  tx_aborted w' = false /\
  trace w' = trace w ++ [if live then EvCommit else EvRollback; EvClose].
Proof.
  unfold finish, tr_commit.
  destruct live; simpl; [destruct (tx_aborted w)|]; simpl; rewrite <- ?app_assoc;
    repeat split.
Qed.

(** A run that has patches to look at and gets the lock is the loop
    between [loop_entry] and [finish]. *)
Lemma run_migrations_entered settings patches live w p ps :
  enters w = true ->
  List.filter eligible patches = p :: ps ->
  run_migrations get_sql_section settings patches live w =
    let '(tx, w0) := loop_entry settings (length (p :: ps)) w in
    match migrate get_sql_section settings {| conn_dsn := pg_dsn settings |}
            (getattr_glove_pg w) live (p :: ps) 0 0 tx w0 with
    | (Escaped e, w1) => (Raised e, aexit w1)
    | (Failed, w1) => (Returned 0, aexit w1)
    | (Completed count up_to_date tx1, w1) =>
        (Returned count, finish live (getattr_glove_pg w) count up_to_date tx1 w1)
    end.
Proof.
  intros He Hf. unfold run_migrations. fold eligible. rewrite Hf.
  unfold enters, table_visible in He.
  unfold loop_entry, create_migrations_table, lock_table_nowait, finish, aenter, tr_start.
  simpl emit. cbn [committed emit set_tx_aborted].
  destruct (migrations (committed w)) as [rows|]; simpl.
  - destruct (locked_elsewhere w) eqn:Hl; simpl in *; [discriminate|].
    rewrite ?Hl. reflexivity.
  - destruct (locked_elsewhere w) eqn:Hl; simpl in *.
    + destruct (elsewhere_commits w) eqn:Hc; simpl in *; [discriminate|]. reflexivity.
    + rewrite ?Hl. reflexivity.
Qed.

(** A run that does not get in: it lost the lock, or its [create table]
    failed after the wait. *)
Lemma run_migrations_kept_out settings patches live w p ps :
  enters w = false ->
  List.filter eligible patches = p :: ps ->
  exists res w',
    run_migrations get_sql_section settings patches live w = (res, w') /\
    committed w' = committed w /\ glove_pg w' = glove_pg w /\
    if waits w then
      res = Raised {| exn_class := UniqueViolationError;
                      exn_msg := "duplicate key value violates unique constraint" |} /\
      new_events w w' =
        [EvConnect (pg_dsn settings); EvBegin; EvExecute migrations_table; EvWait; EvClose]
    else
      res = Returned 0 /\
      new_events w w' = opening settings ++ [EvRollback; EvClose] /\
      new_log w w' =
        [debug "another transaction has locked migrations, skipping migrations here"].
Proof.
  intros He Hf. unfold run_migrations. fold eligible. rewrite Hf.
  unfold enters, waits, table_visible in *.
  unfold create_migrations_table, lock_table_nowait, aenter, tr_start.
  cbn [committed emit set_tx_aborted].
  destruct (migrations (committed w)) as [rows|]; simpl.
  - destruct (locked_elsewhere w) eqn:Hl; simpl in *; [|discriminate].
    eexists _, _. split; [reflexivity|]. simpl. repeat split.
    + apply new_events_app. simpl. rewrite <- !app_assoc. reflexivity.
    + apply new_log_app. reflexivity.
  - destruct (locked_elsewhere w) eqn:Hl; simpl in *; [|discriminate].
    destruct (elsewhere_commits w) eqn:Hc; simpl in *; [|discriminate].
    eexists _, _. split; [reflexivity|]. simpl. repeat split.
    apply new_events_app. simpl. rewrite <- !app_assoc. reflexivity.
Qed.

(** Every run leaves by one of the exit paths. *)
Lemma run_migrations_exit settings patches live w res w' :
  run_migrations get_sql_section settings patches live w = (res, w') ->
  exit_path settings live w res w'.
Proof.
  intros H.
  destruct (List.filter eligible patches) as [|p ps] eqn:Hf.
  { unfold run_migrations in H. fold eligible in H. rewrite Hf in H.
    inversion H; subst. apply NothingToDo; reflexivity. }
  destruct (enters w) eqn:He.
  2:{ destruct (run_migrations_kept_out settings patches live w p ps He Hf)
        as (res0 & w0 & Hrun & Hc & Hg & Hshape).
      rewrite Hrun in H. inversion H; subst res0 w0; clear H.
      destruct (waits w) eqn:Hw.
      - destruct Hshape as [Hres Hev]. eapply CreateFailed; eauto.
      - destruct Hshape as (Hres & Hev & _). apply LockedElsewhere; auto. }
  rewrite (run_migrations_entered settings patches live w p ps He Hf) in H.
  pose proof (loop_entry_frame settings (length (p :: ps)) w He) as Hle.
  destruct (loop_entry settings (length (p :: ps)) w) as [tx0 w0].
  destruct Hle as (_ & Hc0 & Hl0 & _ & Hg0 & Ht0).
  destruct (migrate get_sql_section settings _ _ live (p :: ps) 0 0 tx0 w0)
    as [ex w1] eqn:Hm.
  apply migrate_frame in Hm as (Hc1 & Hl1 & evs & Ht1 & Hcm & Hex).
  destruct ex as [count up tx1| |e].
  - destruct Hex as [Hg1 Hq]. inversion H; subst; clear H.
    destruct (finish_frame live (getattr_glove_pg w) count up tx1 w1)
      as (Hcf & _ & Hgf & _ & Htf).
    destruct live.
    + apply (Committed _ _ _ _ _ count evs); auto.
      apply new_events_app. rewrite Htf, Ht1, Ht0, <- !app_assoc. reflexivity.
    + apply (DryRun _ _ _ _ _ count evs); auto.
      * rewrite Hcf. congruence.
      * apply new_events_app. rewrite Htf, Ht1, Ht0, <- !app_assoc. reflexivity.
  - destruct Hex as (Hg1 & Hr & Hb). inversion H; subst; clear H.
    destruct (aexit_frame w1) as (Hca & Hga & _ & _ & Hta).
    apply (PatchFailed _ _ _ _ _ evs); auto; try congruence.
    apply new_events_app. rewrite Hta, Ht1, Ht0, <- !app_assoc. reflexivity.
  - destruct Hex as [Hg1 Hq]. inversion H; subst; clear H.
    destruct (aexit_frame w1) as (Hca & Hga & _ & _ & Hta).
    apply (ExceptionEscaped _ _ _ _ _ e evs); auto; try congruence.
    apply new_events_app. rewrite Hta, Ht1, Ht0, <- !app_assoc. reflexivity.
Qed.

End RunFrame.

Lemma new_events_refl w : new_events w w = [].
Proof. apply new_events_app. symmetry. apply app_nil_r. Qed.

Lemma Exists_existsb {A} (f : A -> bool) (l : list A) :
  Exists (fun x => f x = true) l -> existsb f l = true.
Proof.
  induction 1 as [x l H|x l _ IH]; simpl.
  - rewrite H. reflexivity.
  - rewrite IH. apply orb_true_r.
Qed.

Lemma Forall_existsb {A} (f : A -> bool) (l : list A) :
  Forall (fun x => f x = false) l -> existsb f l = false.
Proof.
  induction 1 as [|x l H _ IH]; simpl; [reflexivity|].
  rewrite H, IH. reflexivity.
Qed.

Lemma quiet_no_commit evs : Forall quiet evs -> existsb is_commit evs = false.
Proof.
  intros H. apply Forall_existsb. eapply Forall_impl; [exact H|].
  intros e (_ & _ & Hc). exact Hc.
Qed.

(** The prologue has no body, no rollback and no commit in it. *)
Lemma prologue_plain settings w :
  existsb body_raised (prologue settings w) = false /\
  existsb is_rollback (prologue settings w) = false /\
  existsb is_commit (prologue settings w) = false /\
  existsb body_called (prologue settings w) = false /\
  existsb tx_failed (prologue settings w) = false /\
  called_names (prologue settings w) = [].
Proof. unfold prologue. destruct (waits w); repeat split. Qed.

(** Case analysis of a run along its exit path. *)
Ltac by_exit_path Hrun :=
  destruct (run_migrations_exit _ _ _ _ _ _ _ Hrun)
    as [Hres Hw|e He Hwait Hres Hc Hg Hev|He Hwait Hres Hc Hg Hev
       |evs He Hres Hc Hg Hev Hr Hb Hcm
       |e evs He Hres Hc Hg Hev Hq|count evs Hlive He Hres Hg Hev Hq
       |count evs Hlive He Hres Hc Hg Hev Hq].

Ltac plain_prologue settings w :=
  destruct (prologue_plain settings w) as (Hp_raise & Hp_rb & Hp_cm & Hp_call & Hp_fail & Hp_names).

(** ** The batch as a whole *)

Section BatchProperties.

Variable get_sql_section : string -> gmap string string -> result string.

(** C1. Atomicity on patch failure: whenever the body of a patch raises
    during a call of [run_migrations], the call returns 0 and has rolled
    its transaction back without committing: the committed database is
    what it was before the call, so the ledger has no row for any patch
    of the call, the earlier successful ones included, and no table
    shows anything a patch did. *)
Theorem atomicity_on_patch_failure settings patches live w res w' :
  run_migrations get_sql_section settings patches live w = (res, w') ->
  existsb body_raised (new_events w w') = true ->
  res = Returned 0 /\
  committed w' = committed w /\
  ledger (committed w') = ledger (committed w) /\
  tables (committed w') = tables (committed w) /\
  existsb is_rollback (new_events w w') = true /\
  existsb is_commit (new_events w w') = false.
Proof.
  intros Hrun Hraised. by_exit_path Hrun; try plain_prologue settings w.
  - subst w'. rewrite new_events_refl in Hraised. discriminate.
  - rewrite Hev in Hraised. discriminate.
  - rewrite Hev in Hraised. discriminate.
  - rewrite Hc, Hev. repeat split; try assumption.
    + rewrite !existsb_app, (Exists_existsb _ _ Hb). rewrite orb_true_r. reflexivity.
    + rewrite !existsb_app, (Forall_existsb _ _ Hcm), Hp_cm. reflexivity.
  - rewrite Hev, !existsb_app, (quiet_no_raise _ Hq), Hp_raise in Hraised. discriminate.
  - rewrite Hev, !existsb_app, (quiet_no_raise _ Hq), Hp_raise in Hraised. discriminate.
  - rewrite Hev, !existsb_app, (quiet_no_raise _ Hq), Hp_raise in Hraised. discriminate.
Qed.

(** C3. No-op fast path: when no patch of the list has a non-empty
    [auto_ref], [run_migrations] returns 0 and leaves the world exactly
    as it found it: no connection opened, no transaction started, no
    statement sent, nothing logged. *)
Theorem noop_fast_path settings patches live w :
  Forall (fun p => truthy (auto_ref p) = false) patches ->
  run_migrations get_sql_section settings patches live w = (Returned 0, w).
Proof.
  intros H. unfold run_migrations.
  replace (List.filter (fun p => truthy (auto_ref p)) patches) with (@nil Patch);
    [reflexivity|].
  induction H as [|p ps Hp _ IH]; simpl; [reflexivity|].
  rewrite Hp. exact IH.
Qed.


End BatchProperties.

(** ** The executor *)

(** What [run_patch] logs. *)
Lemma run_patch_log conn p name live tx w :
  let r := body_run_of conn live p tx w in
  new_log w (snd (run_patch conn p name live tx w)) =
    ([info (banner (" running " +:+ name +:+ " "))] ++ br_log r ++
    match br_outcome r with
    | Returned PyNone => [info (banner (" " +:+ name +:+ " succeeded "))]
    | Returned v => [info ("result: " +:+ py_str v); info (banner (" " +:+ name +:+ " succeeded "))]
    | Raised e => [info (banner (" " +:+ name +:+ " failed "));
                   exception ("Error running " +:+ fn_name (func p) +:+ " migration patch") e]
    end)%list.
Proof.
  intros r. subst r. apply new_log_app. unfold body_run_of.
  unfold run_patch, call, await, run_body.
  destruct (func p) as [n b|n b|n b]; simpl.
  - set (r := b (patch_kwargs conn live) (glove_pg w) (tables tx)).
    destruct (br_aborted r); destruct (br_outcome r) as [v|e] eqn:Hout; simpl.
    all: try rewrite issubclass_BaseException.
    all: try destruct v.
    all: simpl; rewrite <- ?app_assoc; reflexivity.
  - set (r := b (patch_kwargs conn live) (glove_pg w) (tables tx)).
    destruct (br_aborted r); destruct (br_outcome r) as [v|e] eqn:Hout; simpl.
    all: try rewrite issubclass_BaseException.
    all: try destruct v.
    all: simpl; rewrite <- ?app_assoc; reflexivity.
  - rewrite <- ?app_assoc. reflexivity.
Qed.

(** C7. Executor fault boundary: whatever exception the body of a patch
    raises, of whatever class, [run_patch] does not raise: it returns
    [False], having logged the failure banner and the exception with
    its traceback after whatever the body itself had logged. *)
Theorem executor_fault_boundary conn p name live tx w e :
  br_outcome (body_run_of conn live p tx w) = Raised e ->
  exists tx' w',
    run_patch conn p name live tx w = (Returned false, tx', w') /\
    new_log w w' =
      ([info (banner (" running " +:+ name +:+ " "))]
       ++ br_log (body_run_of conn live p tx w)
       ++ [info (banner (" " +:+ name +:+ " failed "));
           exception ("Error running " +:+ fn_name (func p) +:+ " migration patch") e])%list.
Proof.
  intros Hout.
  destruct (run_patch_eq conn p name live tx w) as (w' & Hrun & _).
  pose proof (run_patch_log conn p name live tx w) as Hlog.
  simpl in Hlog. rewrite Hrun in Hlog |- *. rewrite Hout in Hlog |- *. simpl in *.
  eauto.
Qed.

(** C8, amended. Executor invocation convention: [run_patch] calls the
    patch function once, with the connection, the liveness flag, the
    module logger and an argument mapping holding the automatic-migration
    marker.  For a plain [def] and for an [async def], whose coroutine it
    awaits, the body has run to its end when the verdict is read: the
    transaction holds the tables the finished body left, and the trace
    has the call, the failure of the transaction if a statement of the
    body failed, and the completion.  A callable that is no coroutine
    function but hands back a coroutine is called the same way and never
    awaited: nothing of its work is run, the coroutine object is logged
    as the result, and the verdict is success. *)
Theorem executor_invocation conn p name live tx w :
  kw_conn (patch_kwargs conn live) = conn /\
  kw_live (patch_kwargs conn live) = live /\
  kw_logger (patch_kwargs conn live) = logger /\
  kw_args (patch_kwargs conn live) !! "__auto_migrations__" = Some "true" /\
  (forall n b, func p = Def n b \/ func p = AsyncDef n b ->
     let r := b (patch_kwargs conn live) (glove_pg w) (tables tx) in
     exists w',
       run_patch conn p name live tx w =
         (Returned (is_returned (br_outcome r)),
          {| migrations := migrations tx; tables := br_tables r |}, w') /\
       new_events w w' =
         [EvCall n (patch_kwargs conn live) (glove_pg w)]
         ++ (if br_aborted r then [EvAborted] else [])
         ++ [EvDone n (br_outcome r)]) /\
  (forall n b, func p = AsyncCallable n b ->
     exists w',
       run_patch conn p name live tx w =
         (Returned true, {| migrations := migrations tx; tables := tables tx |}, w') /\
       new_events w w' =
         [EvCall n (patch_kwargs conn live) (glove_pg w);
          EvDone n (Returned (PyObject (coroutine_repr n)))] /\
       new_log w w' =
         [info (banner (" running " +:+ name +:+ " "));
          info ("result: " +:+ coroutine_repr n);
          info (banner (" " +:+ name +:+ " succeeded "))]).
Proof.
  repeat (split; [reflexivity|]).
  destruct (run_patch_eq conn p name live tx w) as (w' & Hrun & _ & _ & _ & _ & _ & Ht).
  pose proof (run_patch_log conn p name live tx w) as Hlog.
  cbv zeta in Hlog. rewrite Hrun in Hlog. cbn [snd] in Hlog.
  unfold body_run_of in *.
  split.
  - intros n b [H|H]; rewrite H in *; cbn [fn_body fn_name] in *;
      exists w'; (split; [exact Hrun|]); apply new_events_app; exact Ht.
  - intros n b H. rewrite H in *. cbn [fn_body fn_name hands_back_coroutine] in *.
    exists w'. split; [exact Hrun|]. split; [apply new_events_app; exact Ht|exact Hlog].
Qed.

(** ** What makes a patch fail *)

Section Verdict.
Variable get_sql_section : string -> gmap string string -> result string.

(** C10. The verdict of [run_patch] is [True] exactly when the body
    returns, whatever value it returns; and a live batch that holds the
    lock and in which no body raised is not rolled back. *)
Theorem success_iff_body_returns :
  (forall conn p name live tx w,
     fst (fst (run_patch conn p name live tx w)) = Returned true <->
     exists v, br_outcome (body_run_of conn live p tx w) = Returned v) /\
  (forall settings patches w res w',
     run_migrations get_sql_section settings patches true w = (res, w') ->
     locked_elsewhere w = false ->
     existsb body_raised (new_events w w') = false ->
     existsb is_rollback (new_events w w') = false).
Proof.
  split.
  - intros conn p name live tx w.
    destruct (run_patch_eq conn p name live tx w) as (w' & Hrun & _).
    simpl in Hrun. rewrite Hrun. simpl.
    destruct (br_outcome (body_run_of conn live p tx w)) as [v|e]; simpl; split.
    + eauto.
    + reflexivity.
    + discriminate.
    + intros [v Hv]. discriminate.
  - intros settings patches w res w' Hrun Hfree Hnone.
    destruct (unlocked_enters w Hfree) as [Hin Hnw].
    by_exit_path Hrun; try plain_prologue settings w; try congruence.
    + subst w'. rewrite new_events_refl. reflexivity.
    + rewrite Hev, !existsb_app, (Exists_existsb _ _ Hr) in Hnone.
      rewrite orb_true_r in Hnone. discriminate.
    + rewrite Hev, !existsb_app, (quiet_no_rollback _ Hq), Hp_rb. reflexivity.
    + rewrite Hev, !existsb_app, (quiet_no_rollback _ Hq), Hp_rb. reflexivity.
Qed.
End Verdict.

(** ** What the columns keep *)

Lemma split_chars_fits s : forall n,
  (char_length s <= n)%nat -> split_chars n s = (s, EmptyString).
Proof.
  induction s as [|c s IH]; intros n Hn; simpl in *; [reflexivity|].
  destruct (is_continuation c); simpl in Hn.
  - rewrite (IH n) by lia. reflexivity.
  - destruct n as [|k]; [lia|]. rewrite (IH k) by lia. reflexivity.
Qed.

Lemma store_varchar_fits s : fits_varchar s = true -> store_varchar 255 s = Some s.
Proof.
  unfold fits_varchar, store_varchar. intros H. apply Nat.leb_le in H.
  rewrite (split_chars_fits s 255 H). reflexivity.
Qed.

(** A tuple that fits its columns is kept as it is. *)
Lemma store_ident_fits i : fits_columns i = true -> store_ident i = Some i.
Proof.
  unfold fits_columns, store_ident. intros H.
  apply andb_true_iff in H as [H H3]. apply andb_true_iff in H as [H1 H2].
  rewrite !store_varchar_fits by assumption. destruct i; reflexivity.
Qed.

(** ** The ledger through the loop *)

Lemma recorded_app i rows rows' :
  recorded i (rows ++ rows') = recorded i rows || recorded i rows'.
Proof. unfold recorded. apply existsb_app. Qed.

Lemma insert_new i tx w rows :
  tx_aborted w = false ->
  fits_columns i = true -> migrations tx = Some rows -> recorded i rows = false ->
  exists w',
    insert_migration i tx w =
      (Returned (Some (S (serial w))),
       {| migrations := Some (rows ++ [{| id := S (serial w); row_ident := i |}]);
          tables := tables tx |}, w').
Proof.
  intros Ha Hf Hm Hr. unfold insert_migration.
  rewrite Ha, (store_ident_fits i Hf), Hm. simpl. rewrite Hr.
  eexists. reflexivity.
Qed.

Lemma insert_known i tx w rows :
  tx_aborted w = false -> known rows i -> migrations tx = Some rows ->
  exists w', insert_migration i tx w = (Returned None, tx, w').
Proof.
  intros Ha (stored & Hs & Hr) Hm. unfold insert_migration.
  rewrite Ha, Hs, Hm. simpl. rewrite Hr.
  eexists. reflexivity.
Qed.

Lemma insert_migration_Returned i tx w o tx1 w1 :
  insert_migration i tx w = (Returned o, tx1, w1) ->
  exists stored rows,
    store_ident i = Some stored /\ migrations tx = Some rows /\
    match o with
    | None => recorded stored rows = true /\ tx1 = tx
    | Some new_id =>
        recorded stored rows = false /\
        migrations tx1 = Some (rows ++ [{| id := new_id; row_ident := stored |}])
    end.
Proof.
  unfold insert_migration. destruct (tx_aborted w); [discriminate|].
  destruct (store_ident i) as [stored|]; [|discriminate].
  destruct (migrations tx) as [rows|] eqn:Hm; [|discriminate]. simpl.
  destruct (recorded stored rows) eqn:Hr; intros H; inversion H; subst;
    exists stored, rows; auto.
Qed.

Lemma recorded_last i new_id rows :
  recorded i (rows ++ [{| id := new_id; row_ident := i |}]) = true.
Proof.
  rewrite recorded_app. simpl. rewrite bool_decide_eq_true_2 by reflexivity.
  apply orb_true_r.
Qed.

Lemma patch_events_facts name kw pg r :
  existsb body_raised (patch_events name kw pg r) = negb (is_returned (br_outcome r)) /\
  existsb tx_failed (patch_events name kw pg r) = br_aborted r /\
  called_names (patch_events name kw pg r) = [name].
Proof.
  unfold patch_events. destruct (br_aborted r), (br_outcome r); repeat split.
Qed.

Lemma called_names_app evs evs' :
  called_names (evs ++ evs') = called_names evs ++ called_names evs'.
Proof. unfold called_names. apply omap_app. Qed.

Section LedgerNew.

Variable get_sql_section : string -> gmap string string -> result string.
Variables (settings : BaseSettings) (conn : connection) (dpg : pg_handle) (live : bool).

Lemma identity_of_Some p i :
  identity_of get_sql_section settings p = Some i ->
  exists content, resolve_section get_sql_section settings p = Returned content /\
                  i = identity p content.
Proof.
  unfold identity_of.
  destruct (resolve_section get_sql_section settings p) as [c|e]; [|discriminate].
  intros H. inversion H. eauto.
Qed.

Lemma identities_cons p ps ids :
  identities get_sql_section settings (p :: ps) = Some ids ->
  exists i ids', ids = i :: ids' /\ identity_of get_sql_section settings p = Some i /\
                 identities get_sql_section settings ps = Some ids'.
Proof.
  simpl. destruct (identity_of get_sql_section settings p) as [i|]; [|discriminate].
  destruct (identities get_sql_section settings ps) as [ids'|]; [|discriminate].
  intros H. inversion H. eauto.
Qed.

(** A loop over patches whose identities are new and pairwise distinct,
    in which no body raises and none leaves the transaction failed, runs
    every body and records every identity. *)
Lemma migrate_all_new ps : forall ids c u tx w rows ex w',
  migrate get_sql_section settings conn dpg live ps c u tx w = (ex, w') ->
  tx_aborted w = false ->
  identities get_sql_section settings ps = Some ids ->
  forallb fits_columns ids = true ->
  NoDup ids ->
  migrations tx = Some rows ->
  Forall (fun i => recorded i rows = false) ids ->
  exists evs,
    trace w' = trace w ++ evs /\
    (existsb body_raised evs = false -> existsb tx_failed evs = false ->
     exists tx',
       ex = Completed (c + Z.of_nat (length ps)) u tx' /\
       tx_aborted w' = false /\
       called_names evs = names_of ps /\
       map row_ident (ledger tx') = map row_ident rows ++ ids).
Proof.
  induction ps as [|p rest IH];
    intros ids c u tx w rows ex w' Hmig Ha Hids Hfit Hnd Hm Hnew.
  - simpl in Hids. inversion Hids; subst ids. simpl in Hmig. inversion Hmig; subst.
    exists []. rewrite app_nil_r. split; [reflexivity|]. intros _ _.
    exists tx. rewrite Z.add_0_r, app_nil_r. unfold ledger. rewrite Hm. auto.
  - apply identities_cons in Hids as (i & ids' & -> & Hi & Hids').
    apply identity_of_Some in Hi as (content & Hres & Hi). subst i.
    simpl in Hfit. apply andb_true_iff in Hfit as [Hfi Hfit].
    apply NoDup_cons in Hnd as [Hni Hnd].
    apply Forall_cons in Hnew as [Hnewi Hnew].
    destruct (insert_new _ tx w rows Ha Hfi Hm Hnewi) as (w1 & Hins).
    pose proof (insert_migration_frame _ _ _ _ _ _ Hins)
      as (_ & _ & _ & _ & Ht1 & _ & Hab1).
    destruct (Hab1 eq_refl) as [_ Ha1].
    set (tx1 := {| migrations := Some (rows ++ [{| id := S (serial w);
                                                   row_ident := identity p content |}]);
                   tables := tables tx |}) in *.
    destruct (run_patch_eq conn p (fn_name (func p)) live tx1 w1)
      as (w2 & Hrun & _ & _ & _ & _ & Ha2 & Ht2).
    set (r := body_run_of conn live p tx1 w1) in *.
    destruct (patch_events_facts (fn_name (func p)) (patch_kwargs conn live) (glove_pg w1) r)
      as (Hpr & Hpf & Hpn).
    remember (patch_events (fn_name (func p)) (patch_kwargs conn live) (glove_pg w1) r)
      as evp eqn:Hevp.
    simpl in Hmig. rewrite Hres, Hins, Hrun in Hmig.
    destruct (br_outcome r) as [v|e] eqn:Hout; simpl in Hmig, Hpr.
    2:{ inversion Hmig; subst ex w'; clear Hmig.
        exists ([EvFetchval (identity p content) (Returned (Some (S (serial w))))]
                ++ evp ++ [EvRollback]).
        split; [simpl; rewrite Ht2, Ht1, <- !app_assoc; reflexivity|].
        intros Hno _. rewrite !existsb_app, Hpr in Hno. simpl in Hno. discriminate. }
    destruct (br_aborted r) eqn:Hab.
    { pose proof (migrate_frame _ _ _ _ _ _ _ _ _ _ _ _ Hmig) as (_ & _ & evs & Ht & _).
      exists ([EvFetchval (identity p content) (Returned (Some (S (serial w))))]
              ++ evp ++ evs).
      split; [rewrite Ht, Ht2, Ht1, <- !app_assoc; reflexivity|].
      intros _ Hno. rewrite !existsb_app, Hpf in Hno. simpl in Hno. discriminate. }
    assert (Hnew' : Forall (fun j => recorded j
              (rows ++ [{| id := S (serial w); row_ident := identity p content |}]) = false) ids').
    { apply Forall_forall. intros j Hj. rewrite recorded_app.
      rewrite Forall_forall in Hnew. rewrite (Hnew j Hj). simpl.
      rewrite orb_false_r. apply bool_decide_eq_false. intros <-.
      apply Hni. exact Hj. }
    rewrite Ha1 in Ha2. simpl in Ha2.
    destruct (IH ids' (c + 1) u _ w2 _ ex w' Hmig Ha2 Hids' Hfit Hnd eq_refl Hnew')
      as (evs & Ht & Hall).
    exists ([EvFetchval (identity p content) (Returned (Some (S (serial w))))]
            ++ evp ++ evs).
    split; [rewrite Ht, Ht2, Ht1, <- !app_assoc; reflexivity|].
    intros Hno Hnf. rewrite !existsb_app in Hno, Hnf. simpl in Hno, Hnf.
    rewrite Hpr in Hno. rewrite Hpf in Hnf. simpl in Hno, Hnf.
    destruct (Hall Hno Hnf) as (tx' & Hex & Ha' & Hcalls & Hled).
    exists tx'. split; [rewrite Hex; f_equal; simpl length; lia|].
    split; [exact Ha'|]. split.
    + rewrite !called_names_app, Hpn, Hcalls. reflexivity.
    + rewrite Hled, List.map_app. simpl. rewrite <- app_assoc. reflexivity.
Qed.

End LedgerNew.

Lemma filter_all_eligible patches :
  Forall (fun p => truthy (auto_ref p) = true) patches -> List.filter eligible patches = patches.
Proof.
  induction 1 as [|p ps Hp _ IH]; simpl; [reflexivity|].
  unfold eligible at 1. rewrite Hp, IH. reflexivity.
Qed.

(** ** Fresh patches, dry runs and the sentinel *)

Section FreshPatches.
Variable get_sql_section : string -> gmap string string -> result string.

(** The same for the whole run, live or not. *)
Lemma run_migrations_all_new settings patches live ids w res w' :
  Forall (fun p => truthy (auto_ref p) = true) patches ->
  locked_elsewhere w = false ->
  identities get_sql_section settings patches = Some ids ->
  forallb fits_columns ids = true ->
  NoDup ids ->
  Forall (fun i => recorded i (ledger (committed w)) = false) ids ->
  run_migrations get_sql_section settings patches live w = (res, w') ->
  existsb body_raised (new_events w w') = false ->
  existsb tx_failed (new_events w w') = false ->
  res = Returned (Z.of_nat (length patches)) /\
  called_names (new_events w w') = names_of patches /\
  (live = false -> committed w' = committed w) /\
  (live = true ->
   map row_ident (ledger (committed w')) = map row_ident (ledger (committed w)) ++ ids).
Proof.
  intros Hel Hfree Hids Hfit Hnd Hnew Hrun Hnr Hnf.
  pose proof (filter_all_eligible _ Hel) as Hf.
  destruct patches as [|p ps].
  { unfold run_migrations in Hrun. simpl in Hrun. inversion Hrun; subst.
    simpl in Hids. inversion Hids; subst ids.
    rewrite new_events_refl, app_nil_r. auto. }
  destruct (unlocked_enters w Hfree) as [Hent _].
  rewrite (run_migrations_entered get_sql_section settings _ live w p ps Hent Hf) in Hrun.
  pose proof (loop_entry_frame settings (length (p :: ps)) w Hent) as He.
  destruct (loop_entry settings (length (p :: ps)) w) as [tx0 w0].
  destruct He as (Htx0 & Hc0 & Hl0 & Ha0 & Hg0 & Ht0).
  destruct (migrate get_sql_section settings {| conn_dsn := pg_dsn settings |}
              (getattr_glove_pg w) live (p :: ps) 0 0 tx0 w0) as [ex w1] eqn:Hmig.
  destruct (migrate_all_new get_sql_section settings {| conn_dsn := pg_dsn settings |}
              (getattr_glove_pg w) live (p :: ps) ids 0 0 tx0 w0 (ledger (committed w))
              ex w1 Hmig Ha0 Hids Hfit Hnd) as (evs & Ht1 & Hall).
  { rewrite Htx0. reflexivity. }
  { exact Hnew. }
  pose proof (migrate_frame _ _ _ _ _ _ _ _ _ _ _ _ Hmig) as (Hc1 & _).
  plain_prologue settings w.
  assert (Hevs : exists tail, new_events w w' = prologue settings w ++ evs ++ tail).
  { destruct ex as [count up tx1| |e]; inversion Hrun; subst res w'.
    - destruct (finish_frame live (getattr_glove_pg w) count up tx1 w1)
        as (_ & _ & _ & _ & Htf).
      eexists. apply new_events_app. rewrite Htf, Ht1, Ht0, <- !app_assoc. reflexivity.
    - destruct (aexit_frame w1) as (_ & _ & _ & _ & Hta).
      eexists. apply new_events_app. rewrite Hta, Ht1, Ht0, <- !app_assoc. reflexivity.
    - destruct (aexit_frame w1) as (_ & _ & _ & _ & Hta).
      eexists. apply new_events_app. rewrite Hta, Ht1, Ht0, <- !app_assoc. reflexivity. }
  destruct Hevs as (tail & Hevs).
  rewrite Hevs, !existsb_app in Hnr, Hnf.
  apply orb_false_iff in Hnr as [_ Hnr]. apply orb_false_iff in Hnr as [Hnr _].
  apply orb_false_iff in Hnf as [_ Hnf]. apply orb_false_iff in Hnf as [Hnf _].
  destruct (Hall Hnr Hnf) as (tx1 & Hex & Ha1 & Hcalls & Hled). subst ex.
  pose proof (finish_frame live (getattr_glove_pg w) (0 + Z.of_nat (length (p :: ps))) 0 tx1 w1)
    as (Hcf & _ & _ & _ & Htf).
  cbv beta zeta iota in Hcf, Htf.
  set (wf := finish live (getattr_glove_pg w) (0 + Z.of_nat (length (p :: ps))) 0 tx1 w1) in *.
  inversion Hrun; subst res w'; clear Hrun.
  split; [reflexivity|]. split; [|split].
  - erewrite new_events_app.
    2:{ rewrite Htf, Ht1, Ht0, <- !app_assoc. reflexivity. }
    rewrite !called_names_app, Hp_names, Hcalls.
    destruct live; simpl; rewrite app_nil_r; reflexivity.
  - intros ->. rewrite Hcf. congruence.
  - intros ->. rewrite Hcf, Ha1. exact Hled.
Qed.

(** C2, amended. Dry run: for every list of N eligible patches whose
    identity tuples resolve, fit their columns, are pairwise distinct and
    are not in the ledger yet, and with the lock free, a run of
    [run_migrations] with [live=false] in which no body raises and none
    leaves the transaction in the failed state runs the body of every
    patch in list order, returns N and commits nothing: the committed
    database is unchanged, and the ledger table still does not exist if
    it did not exist before. *)
Theorem dry_run_counts_new_patches settings patches ids w res w' :
  Forall (fun p => truthy (auto_ref p) = true) patches ->
  locked_elsewhere w = false ->
  identities get_sql_section settings patches = Some ids ->
  forallb fits_columns ids = true ->
  NoDup ids ->
  Forall (fun i => recorded i (ledger (committed w)) = false) ids ->
  run_migrations get_sql_section settings patches false w = (res, w') ->
  existsb body_raised (new_events w w') = false ->
  existsb tx_failed (new_events w w') = false ->
  res = Returned (Z.of_nat (length patches)) /\
  called_names (new_events w w') = map (fun p => fn_name (func p)) patches /\
  committed w' = committed w /\
  (migrations (committed w) = None -> migrations (committed w') = None).
Proof.
  intros Hel Hfree Hids Hfit Hnd Hnew Hrun Hnr Hnf.
  destruct (run_migrations_all_new _ _ _ _ _ _ _ Hel Hfree Hids Hfit Hnd Hnew Hrun Hnr Hnf)
    as (Hres & Hcalls & Hdry & _).
  specialize (Hdry eq_refl). rewrite Hdry. auto.
Qed.

(** C6, amended. Identity sentinel: a patch with no SQL section (absent
    or empty) is looked up and recorded under [sql_section_name = "-"]
    and [sql_section_content = "-"], an empty section text being
    normalised the same way; a live run of such a patch alone, whose
    body returns and leaves the transaction usable, adds exactly that
    row to the ledger; and the tuple differs from that of every patch
    with a section named anything but ["-"], whatever that section
    resolves to. *)
Theorem identity_sentinel settings p :
  truthy (auto_ref_sql_section p) = false ->
  let sentinel := {| patch_name := fn_name (func p);
                     auto_ref_col := match auto_ref p with Some s => s | None => EmptyString end;
                     sql_section_name := "-"; sql_section_content := "-" |} in
  identity_of get_sql_section settings p = Some sentinel /\
  identity p (Some EmptyString) = sentinel /\
  (forall w res w',
     truthy (auto_ref p) = true -> fits_columns sentinel = true ->
     locked_elsewhere w = false ->
     recorded sentinel (ledger (committed w)) = false ->
     run_migrations get_sql_section settings [p] true w = (res, w') ->
     existsb body_raised (new_events w w') = false ->
     existsb tx_failed (new_events w w') = false ->
     res = Returned 1 /\
     map row_ident (ledger (committed w')) = map row_ident (ledger (committed w)) ++ [sentinel]) /\
  (forall q content,
     truthy (auto_ref_sql_section q) = true ->
     auto_ref_sql_section q <> Some "-" ->
     identity q content <> sentinel).
Proof.
  intros Hno sentinel.
  assert (Hid : identity_of get_sql_section settings p = Some sentinel).
  { unfold identity_of, resolve_section, identity, sentinel.
    destruct (auto_ref_sql_section p) as [s|]; simpl in *.
    - apply negb_false_iff in Hno. rewrite Hno. reflexivity.
    - reflexivity. }
  split; [exact Hid|]. split.
  { unfold identity, sentinel. f_equal.
    destruct (auto_ref_sql_section p) as [s|]; simpl in *; [|reflexivity].
    apply negb_false_iff in Hno. rewrite Hno. reflexivity. }
  split.
  - intros w res w' Hel Hfit Hfree Hnew Hrun Hnr Hnf.
    eapply (run_migrations_all_new settings [p] true [sentinel]) in Hrun
      as (Hres & _ & _ & Hlive); eauto.
    + simpl. rewrite Hid. reflexivity.
    + simpl. rewrite Hfit. reflexivity.
    + repeat constructor. intros H. inversion H.
  - intros q content Hq Hne Heq.
    unfold identity, sentinel in Heq. injection Heq as _ _ Hname _.
    destruct (auto_ref_sql_section q) as [s|]; simpl in *; [|discriminate].
    destruct (String.eqb s EmptyString) eqn:Hs; [discriminate|].
    subst s. apply Hne. reflexivity.
Qed.
End FreshPatches.

Section LedgerKnown.
Variable get_sql_section : string -> gmap string string -> result string.
Variables (settings : BaseSettings) (conn : connection) (dpg : pg_handle) (live : bool).

(** A loop that falls off its end leaves every patch it looked at in
    the ledger of its transaction, as the columns keep it, and removes
    nothing from it; its transaction is in the failed state exactly when
    a body left it so. *)
Lemma migrate_completed_records ps : forall c u tx w c' u' tx' w' rows,
  migrate get_sql_section settings conn dpg live ps c u tx w = (Completed c' u' tx', w') ->
  migrations tx = Some rows ->
  exists rows' ids evs,
    trace w' = trace w ++ evs /\
    tx_aborted w' = tx_aborted w || existsb tx_failed evs /\
    migrations tx' = Some rows' /\
    (forall i, recorded i rows = true -> recorded i rows' = true) /\
    identities get_sql_section settings ps = Some ids /\
    Forall (known rows') ids.
Proof.
  induction ps as [|p rest IH]; intros c u tx w c' u' tx' w' rows H Hm; simpl in H.
  - inversion H; subst. exists rows, [], []. rewrite app_nil_r, orb_false_r. auto 10.
  - unfold identities; fold (identities get_sql_section settings). unfold identity_of.
    destruct (resolve_section get_sql_section settings p) as [content|e]; [|discriminate].
    destruct (insert_migration (identity p content) tx w) as [[r tx1] w1] eqn:Hins.
    destruct r as [o|e]; [|discriminate].
    pose proof (insert_migration_frame _ _ _ _ _ _ Hins) as (_ & _ & _ & _ & Ht1 & _ & Hab).
    destruct (Hab eq_refl) as [Ha Ha1].
    apply insert_migration_Returned in Hins as (stored & rows0 & Hst & Hm0 & Ho).
    rewrite Hm in Hm0. inversion Hm0; subst rows0; clear Hm0.
    destruct o as [new_id|].
    + destruct (run_patch_eq conn p (fn_name (func p)) live tx1 w1)
        as (w2 & Hrun & _ & _ & _ & _ & Ha2 & Ht2).
      rewrite Hrun in H. clear Hrun.
      destruct (patch_events_facts (fn_name (func p)) (patch_kwargs conn live) (glove_pg w1)
                  (body_run_of conn live p tx1 w1)) as (_ & Hpf & _).
      remember (patch_events (fn_name (func p)) (patch_kwargs conn live) (glove_pg w1)
                  (body_run_of conn live p tx1 w1)) as evp eqn:Hevp.
      destruct (is_returned _); [|discriminate].
      destruct Ho as [Hr Hm1].
      eapply IH in H as (rows' & ids & evs & Ht & Ha' & Hm' & Hkeep & Hids & Hrec);
        [|simpl; exact Hm1].
      exists rows', (identity p content :: ids),
        ([EvFetchval (identity p content) (Returned (Some new_id))] ++ evp ++ evs).
      rewrite Hids.
      split; [rewrite Ht, Ht2, Ht1, <- !app_assoc; reflexivity|].
      split.
      { rewrite Ha', Ha2, Ha1, Ha, !existsb_app, Hpf. reflexivity. }
      split; [exact Hm'|]. split.
      { intros i Hi. apply Hkeep. rewrite recorded_app, Hi. reflexivity. }
      split; [reflexivity|].
      constructor; [|exact Hrec]. exists stored. split; [exact Hst|].
      apply Hkeep. apply recorded_last.
    + destruct Ho as [Hr ->].
      eapply IH in H as (rows' & ids & evs & Ht & Ha' & Hm' & Hkeep & Hids & Hrec);
        [|exact Hm].
      exists rows', (identity p content :: ids),
        ([EvFetchval (identity p content) (Returned None)] ++ evs).
      rewrite Hids.
      split; [rewrite Ht, Ht1, <- !app_assoc; reflexivity|].
      split; [rewrite Ha', Ha1, Ha; reflexivity|].
      split; [exact Hm'|]. split; [exact Hkeep|]. split; [reflexivity|].
      constructor; [|exact Hrec]. exists stored. auto.
Qed.

(** When the ledger already has every patch, the loop runs no body: it
    only sends the inserts, each of which comes back empty. *)
Lemma migrate_all_recorded ps : forall ids c u tx w rows,
  tx_aborted w = false ->
  identities get_sql_section settings ps = Some ids ->
  migrations tx = Some rows ->
  Forall (known rows) ids ->
  exists w',
    migrate get_sql_section settings conn dpg live ps c u tx w
      = (Completed c (u + Z.of_nat (length ps)) tx, w') /\
    tx_aborted w' = false /\
    trace w' = trace w ++ map (fun i => EvFetchval i (Returned None)) ids.
Proof.
  induction ps as [|p rest IH]; intros ids c u tx w rows Ha Hids Hm Hrec.
  - simpl in Hids. inversion Hids; subst. simpl. exists w.
    rewrite Z.add_0_r, app_nil_r. auto.
  - apply identities_cons in Hids as (i & ids' & -> & Hi & Hids').
    apply identity_of_Some in Hi as (content & Hres & Hi). subst i.
    apply Forall_cons in Hrec as [Hreci Hrec].
    destruct (insert_known _ tx w rows Ha Hreci Hm) as (w1 & Hins).
    pose proof (insert_migration_frame _ _ _ _ _ _ Hins) as (_ & _ & _ & _ & Ht1 & _ & Hab).
    destruct (Hab eq_refl) as [_ Ha1].
    destruct (IH ids' c (u + 1) tx w1 rows Ha1 Hids' Hm Hrec) as (w' & Hmig & Ha' & Ht).
    exists w'. simpl. rewrite Hres, Hins, Hmig. split; [|split].
    + f_equal. f_equal. lia.
    + exact Ha'.
    + rewrite Ht, Ht1, <- app_assoc. reflexivity.
Qed.
End LedgerKnown.

(** ** Running twice *)

Section RunningTwice.
Variable get_sql_section : string -> gmap string string -> result string.

(** A run that does not get into the loop commits nothing. *)
Lemma kept_out_never_commits settings patches live w res w' :
  enters w = false ->
  run_migrations get_sql_section settings patches live w = (res, w') ->
  existsb is_commit (new_events w w') = false.
Proof.
  intros Hout Hrun. by_exit_path Hrun; try congruence.
  - subst w'. rewrite new_events_refl. reflexivity.
  - rewrite Hev. reflexivity.
  - rewrite Hev. reflexivity.
Qed.

(** C5, amended. Idempotence: after a live call of [run_migrations]
    that committed and in which no body left the transaction in the
    failed state, a second live call with the same patches returns 0,
    enters no patch body and leaves the committed database, hence the
    ledger and its row count, unchanged.  Between opening and commit the
    second call sends one conflict-skip insert per eligible patch and
    nothing else, and every one of them comes back empty. *)
Theorem idempotence settings patches w0 n w1 res w2 :
  run_migrations get_sql_section settings patches true w0 = (Returned n, w1) ->
  existsb is_commit (new_events w0 w1) = true ->
  existsb tx_failed (new_events w0 w1) = false ->
  run_migrations get_sql_section settings patches true w1 = (res, w2) ->
  res = Returned 0 /\
  existsb body_called (new_events w1 w2) = false /\
  committed w2 = committed w1 /\
  length (ledger (committed w2)) = length (ledger (committed w1)) /\
  exists ids,
    identities get_sql_section settings (List.filter eligible patches) = Some ids /\
    ids <> [] /\
    new_events w1 w2 =
      opening settings ++ map (fun i => EvFetchval i (Returned None)) ids
      ++ [EvCommit; EvClose].
Proof.
  intros Hrun1 Hcommit Hclean Hrun2.
  destruct (List.filter eligible patches) as [|p ps] eqn:Hf.
  { unfold run_migrations in Hrun1. fold eligible in Hrun1. rewrite Hf in Hrun1.
    inversion Hrun1; subst. rewrite new_events_refl in Hcommit. discriminate. }
  destruct (enters w0) eqn:Hent.
  2:{ rewrite (kept_out_never_commits _ _ _ _ _ _ Hent Hrun1) in Hcommit.
      discriminate. }
  (* the first call *)
  rewrite (run_migrations_entered get_sql_section settings _ true w0 p ps Hent Hf) in Hrun1.
  pose proof (loop_entry_frame settings (length (p :: ps)) w0 Hent) as He.
  destruct (loop_entry settings (length (p :: ps)) w0) as [tx0 wa].
  destruct He as (Htx0 & _ & Hla & Haa & _ & Hta).
  destruct (migrate get_sql_section settings _ _ true (p :: ps) 0 0 tx0 wa)
    as [ex wb] eqn:Hmig.
  pose proof (migrate_frame _ _ _ _ _ _ _ _ _ _ _ _ Hmig) as (_ & Hlb & evs & Htb & Hcm & _).
  destruct ex as [count up tx1| |e]; [| |discriminate].
  2:{ inversion Hrun1; subst. exfalso.
      destruct (aexit_frame wb) as (_ & _ & _ & _ & Hte).
      plain_prologue settings w0.
      erewrite new_events_app in Hcommit.
      2:{ rewrite Hte, Htb, Hta, <- !app_assoc. reflexivity. }
      rewrite !existsb_app, Hp_cm, (Forall_existsb _ _ Hcm) in Hcommit. discriminate. }
  eapply migrate_completed_records in Hmig
    as (rows1 & ids & evs' & Htb' & Hab & Hm1 & _ & Hids & Hrec);
    [|rewrite Htx0; reflexivity].
  rewrite Htb in Htb'. apply app_inv_head in Htb'. subst evs'.
  pose proof (finish_frame true (getattr_glove_pg w0) count up tx1 wb)
    as (Hc1 & Hl1 & _ & Ha1 & Ht1).
  cbv beta zeta iota in Hc1, Hl1, Ha1, Ht1. inversion Hrun1; subst n w1; clear Hrun1.
  set (w1 := finish true (getattr_glove_pg w0) count up tx1 wb) in *.
  assert (Hclean' : tx_aborted wb = false).
  { plain_prologue settings w0.
    erewrite new_events_app in Hclean.
    2:{ rewrite Ht1, Htb, Hta, <- !app_assoc. reflexivity. }
    rewrite !existsb_app in Hclean.
    apply orb_false_iff in Hclean as [_ Hclean].
    apply orb_false_iff in Hclean as [Hclean _].
    rewrite Hab, Haa, Hclean. reflexivity. }
  rewrite Hclean' in Hc1.
  assert (Hfree1 : locked_elsewhere w1 = false) by congruence.
  (* the second call *)
  destruct (unlocked_enters w1 Hfree1) as [Hent1 _].
  rewrite (run_migrations_entered get_sql_section settings _ true w1 p ps Hent1 Hf) in Hrun2.
  pose proof (loop_entry_frame settings (length (p :: ps)) w1 Hent1) as He.
  destruct (loop_entry settings (length (p :: ps)) w1) as [tx2 wc].
  destruct He as (Htx2 & _ & _ & Hac & _ & Htc).
  rewrite (unlocked_prologue settings w1 Hfree1) in Htc.
  assert (Htx : {| migrations := Some (ledger (committed w1));
                   tables := tables (committed w1) |} = tx1).
  { unfold ledger. rewrite Hc1, Hm1. destruct tx1; simpl in *. congruence. }
  rewrite Htx in Htx2. subst tx2.
  destruct (migrate_all_recorded get_sql_section settings {| conn_dsn := pg_dsn settings |}
              (getattr_glove_pg w1) true (p :: ps) ids 0 0 tx1 wc rows1 Hac Hids Hm1 Hrec)
    as (wd & Hmig2 & Had & Htd).
  rewrite Hmig2 in Hrun2.
  pose proof (finish_frame true (getattr_glove_pg w1) 0 (0 + Z.of_nat (length (p :: ps))) tx1 wd)
    as (Hc2 & _ & _ & _ & Ht2).
  cbv beta zeta iota in Hc2, Ht2. rewrite Had in Hc2.
  set (w2' := finish true (getattr_glove_pg w1) 0 (0 + Z.of_nat (length (p :: ps))) tx1 wd) in *.
  inversion Hrun2; subst res w2; clear Hrun2.
  assert (Hev : new_events w1 w2'
                = opening settings ++ map (fun i => EvFetchval i (Returned None)) ids
                  ++ [EvCommit; EvClose]).
  { apply new_events_app. rewrite Ht2, Htd, Htc, <- !app_assoc. reflexivity. }
  split; [reflexivity|]. split.
  { rewrite Hev, !existsb_app.
    assert (Hnone : existsb body_called (map (fun i => EvFetchval i (Returned None)) ids) = false)
      by (clear; induction ids as [|i ids IH]; simpl; auto).
    rewrite Hnone. reflexivity. }
  split; [congruence|]. split; [congruence|].
  exists ids. split; [exact Hids|]. split; [|exact Hev].
  intros ->. simpl in Hids. destruct (identity_of _ _ p); [|discriminate].
  destruct (identities _ _ ps); discriminate.
Qed.
End RunningTwice.

(** ** The process-wide connection handle *)

Section Glove.
Variable get_sql_section : string -> gmap string string -> result string.

(** X10. Whenever [run_migrations] returns, whether it found nothing to
    do, lost the lock, rolled a failed batch back, committed or finished a
    dry run, [getattr(glove, 'pg', None)] reads what it read before the
    call. *)
Lemma glove_pg_restored_on_return settings patches live w n w' :
  run_migrations get_sql_section settings patches live w = (Returned n, w') ->
  getattr_glove_pg w' = getattr_glove_pg w.
Proof.
  intros Hrun. by_exit_path Hrun; try discriminate;
    unfold getattr_glove_pg; try rewrite Hg; try reflexivity.
  subst w'. reflexivity.
Qed.

(** A path that raises from inside the loop leaves the [DummyPgPool] of
    the closed connection in [glove.pg]; one that raises before the loop
    has not touched it.  The transaction is gone all the same. *)
Lemma glove_pg_kept_on_raise settings patches live w exc w' :
  run_migrations get_sql_section settings patches live w = (Raised exc, w') ->
  committed w' = committed w /\
  glove_pg w' = (if enters w then Some (DummyPgPool {| conn_dsn := pg_dsn settings |})
                 else glove_pg w).
Proof.
  intros Hrun. by_exit_path Hrun; try discriminate; rewrite He; auto.
Qed.
End Glove.

(** C9. Temporary substitution of [glove.pg]: the code at the input on
    which the claim fails.  For a patch whose SQL section is missing,
    [get_sql_section] raises inside the loop, the exception leaves
    [run_migrations] through the [async with] block, and [glove.pg],
    which held the application pool, is left holding the [DummyPgPool]
    of the closed connection.  Nothing was committed. *)
Theorem glove_pg_not_restored_when_section_missing :
  fst orphan_run = Raised {| exn_class := RuntimeError; exn_msg := "section not found" |} /\
  glove_pg wiped = Some (PgPool "app") /\
  glove_pg (snd orphan_run) = Some (DummyPgPool test_conn) /\
  committed (snd orphan_run) = committed wiped /\
  new_events wiped (snd orphan_run) = opening test_settings ++ [EvClose].
Proof. vm_compute. repeat split. Qed.

(** * The runs of the test suite *)

(** [test_run_migrations_ok]: what [caplog] holds after the two calls. *)
Example test_run_migrations_ok_log :
  fst first_run = Returned 1 /\
  fst second_run = Returned 0 /\
  map lr_msg (log (snd second_run)) =
    ["checking 1 migration patches...";
     "---------------- running ok_patch ----------------";
     "running ok_patch";
     "--------------- ok_patch succeeded ---------------";
     "1 migration patches run, 0 already up to date ✓";
     "checking 1 migration patches...";
     "0 migration patches run, 1 already up to date ✓"].
Proof. vm_compute. repeat split. Qed.

(** [test_run_migrations_error]: the first patch ran and is discarded,
    and the table is not there afterwards. *)
Example test_run_migrations_error_log :
  fst failing_batch = Returned 0 /\
  migrations (committed (snd failing_batch)) = None /\
  map lr_msg (log (snd failing_batch)) =
    ["checking 2 migration patches...";
     "-------------- running hello_patch ---------------";
     "result: hello";
     "------------- hello_patch succeeded --------------";
     "-------------- running error_patch ---------------";
     "--------------- error_patch failed ---------------";
     "Error running error_patch migration patch";
     "patch failed, rolling back all 1 migration patches in this session"].
Proof. vm_compute. repeat split. Qed.

(** The third call of [test_run_migrations_ok], under a foreign lock. *)
Example test_run_migrations_locked_log :
  fst contended_run = Returned 0 /\
  log (snd contended_run) =
    [debug "another transaction has locked migrations, skipping migrations here"].
Proof. vm_compute. repeat split. Qed.

(** * Witnesses and counterexamples *)

(** C1 at [test_run_migrations_error]. *)
Lemma atomicity_on_patch_failure_witness :
  fst failing_batch = Returned 0 /\
  committed (snd failing_batch) = committed wiped /\
  called_names (new_events wiped (snd failing_batch)) = ["hello_patch"; "error_patch"].
Proof.
  destruct (atomicity_on_patch_failure lookup_section test_settings
              [hello_patch; error_patch] true wiped (fst failing_batch) (snd failing_batch))
    as (Hres & Hc & _).
  - vm_compute. reflexivity.
  - vm_compute. reflexivity.
  - split; [exact Hres|]. split; [exact Hc|]. vm_compute. reflexivity.
Defined.

(** C2 as stated fails: two eligible patches whose body returns on
    every input, with the same identity tuple, run dry on a wiped
    database, give 1, not 2, and only the first body runs. *)
Lemma dry_run_duplicate_counterexample :
  Forall (fun p => truthy (auto_ref p) = true) [ok_patch; ok_patch] /\
  (forall kw pg t, br_outcome (fn_work (func ok_patch) kw pg t) = Returned PyNone) /\
  length [ok_patch; ok_patch] = 2%nat /\
  existsb body_raised (new_events wiped (snd duplicate_dry_run)) = false /\
  fst duplicate_dry_run = Returned 1 /\
  called_names (new_events wiped (snd duplicate_dry_run)) = ["ok_patch"].
Proof.
  split; [repeat constructor|]. split; [reflexivity|].
  vm_compute. repeat split.
Qed.

(** C2, amended, at a patch and one that passes only after it. *)
Lemma dry_run_counts_new_patches_witness :
  fst dependent_dry_run = Returned 2 /\
  called_names (new_events wiped (snd dependent_dry_run)) = ["hello_patch"; "dependent_patch"] /\
  migrations (committed (snd dependent_dry_run)) = None.
Proof.
  destruct (dry_run_counts_new_patches lookup_section test_settings
              [hello_patch; dependent_patch]
              [identity hello_patch None; identity dependent_patch None] wiped
              (fst dependent_dry_run) (snd dependent_dry_run))
    as (Hres & Hcalls & _ & Hnone).
  - repeat constructor.
  - reflexivity.
  - reflexivity.
  - vm_compute. reflexivity.
  - apply (bool_decide_unpack _). vm_compute. exact I.
  - repeat constructor.
  - vm_compute. reflexivity.
  - vm_compute. reflexivity.
  - vm_compute. reflexivity.
  - split; [exact Hres|]. split; [exact Hcalls|]. apply Hnone. reflexivity.
Defined.

(** C3 at a list holding one manual patch. *)
Lemma noop_fast_path_witness :
  run_migrations lookup_section test_settings [manual_patch] true wiped = (Returned 0, wiped).
Proof.
  apply (noop_fast_path lookup_section test_settings [manual_patch] true wiped).
  repeat constructor.
Defined.



(** C5 as stated fails: a body one of whose statements failed on the
    server, and which caught the error, returns; the live call counts
    it, sends the commit and returns 1, the server answers the commit
    of the failed transaction with a rollback, and nothing is recorded.
    The second call runs the body again and returns 1 again. *)
Lemma idempotence_counterexample :
  List.filter eligible [swallow_patch] = [swallow_patch] /\
  fst swallowed_first_run = Returned 1 /\
  existsb is_commit (new_events wiped (snd swallowed_first_run)) = true /\
  existsb body_raised (new_events wiped (snd swallowed_first_run)) = false /\
  ledger (committed (snd swallowed_first_run)) = [] /\
  fst swallowed_second_run = Returned 1 /\
  called_names (new_events (snd swallowed_first_run) (snd swallowed_second_run))
    = ["swallow_patch"].
Proof. vm_compute. repeat split. Qed.

(** C5, amended, at [test_run_migrations_ok]. *)
Lemma idempotence_witness :
  fst first_run = Returned 1 /\
  fst second_run = Returned 0 /\
  committed (snd second_run) = committed (snd first_run) /\
  length (ledger (committed (snd second_run))) = 1%nat.
Proof.
  destruct (idempotence lookup_section test_settings [ok_patch] wiped 1
              (snd first_run) (fst second_run) (snd second_run))
    as (Hres & _ & Hc & Hlen & _).
  - vm_compute. reflexivity.
  - vm_compute. reflexivity.
  - vm_compute. reflexivity.
  - vm_compute. reflexivity.
  - split; [vm_compute; reflexivity|]. split; [exact Hres|]. split; [exact Hc|].
    rewrite Hlen. vm_compute. reflexivity.
Defined.

(** C6 as stated fails: a patch tied to a section that is itself named
    ["-"] and resolves to ["-"] has the identity tuple of the same patch
    with no section, so a live run of both records one row and skips the
    second as already up to date. *)
Lemma sentinel_collision_counterexample :
  truthy (auto_ref_sql_section ok_patch) = false /\
  resolve_section lookup_section test_settings dash_patch = Returned (Some "-") /\
  identity_of lookup_section test_settings dash_patch
    = identity_of lookup_section test_settings ok_patch /\
  fst colliding_run = Returned 1 /\
  called_names (new_events wiped (snd colliding_run)) = ["ok_patch"] /\
  length (ledger (committed (snd colliding_run))) = 1%nat.
Proof. vm_compute. repeat split. Qed.

(** C6, amended, at [ok_patch]. *)
Lemma identity_sentinel_witness :
  identity_of lookup_section test_settings ok_patch = Some sentinel_row /\
  fst first_run = Returned 1 /\
  map row_ident (ledger (committed (snd first_run))) = [sentinel_row] /\
  identity views_patch (Some "-") <> sentinel_row.
Proof.
  destruct (identity_sentinel lookup_section test_settings ok_patch eq_refl)
    as (Hid & _ & Hrun & Hne).
  split; [exact Hid|].
  destruct (Hrun wiped (fst first_run) (snd first_run)) as (Hres & Hled).
  - reflexivity.
  - vm_compute. reflexivity.
  - reflexivity.
  - reflexivity.
  - vm_compute. reflexivity.
  - vm_compute. reflexivity.
  - vm_compute. reflexivity.
  - split; [exact Hres|]. split; [exact Hled|].
    apply (Hne views_patch (Some "-")); [reflexivity|discriminate].
Defined.

(** C7 at a body stopped by [KeyboardInterrupt], which is no [Exception]. *)
Lemma executor_fault_boundary_witness :
  issubclass KeyboardInterrupt Exception = false /\
  fst (fst (run_patch test_conn interrupted_patch "interrupted_patch" true empty_tx wiped))
    = Returned false /\
  new_log wiped (snd (run_patch test_conn interrupted_patch "interrupted_patch" true
                        empty_tx wiped)) =
    [info "----------- running interrupted_patch ------------";
     info "------------ interrupted_patch failed ------------";
     exception "Error running interrupted_patch migration patch" interrupt].
Proof.
  split; [reflexivity|].
  destruct (executor_fault_boundary test_conn interrupted_patch "interrupted_patch" true
              empty_tx wiped interrupt eq_refl) as (tx' & w' & Hrun & Hlog).
  rewrite Hrun. split; [reflexivity|]. simpl. rewrite Hlog. reflexivity.
Defined.

(** C8 as stated fails: a callable that is no coroutine function and
    hands back the coroutine of its work is called and never awaited.
    The work, which would insert a row, is not run; the patch counts as
    succeeded and the coroutine object is logged as its result. *)
Lemma executor_invocation_counterexample :
  iscoroutinefunction (func unawaited_patch) = false /\
  br_tables (work_of test_conn true unawaited_patch empty_tx wiped) !! "organisations"
    = Some ["acme"] /\
  fst (run_patch test_conn unawaited_patch "unawaited_patch" true empty_tx wiped)
    = (Returned true, empty_tx) /\
  map lr_msg (new_log wiped (snd (run_patch test_conn unawaited_patch "unawaited_patch"
                                    true empty_tx wiped))) =
    ["------------ running unawaited_patch -------------";
     "result: <coroutine object unawaited_patch>";
     "----------- unawaited_patch succeeded ------------"].
Proof. vm_compute. repeat split. Qed.

(** C8, amended, at a plain [def] that inserts a row. *)
Lemma executor_invocation_witness :
  fst (run_patch test_conn hello_patch "hello_patch" false empty_tx wiped) =
    (Returned true, {| migrations := Some []; tables := {[ "organisations" := ["acme"] ]} |}) /\
  called_names (new_events wiped
                  (snd (run_patch test_conn hello_patch "hello_patch" false empty_tx wiped)))
    = ["hello_patch"].
Proof.
  destruct (executor_invocation test_conn hello_patch "hello_patch" false empty_tx wiped)
    as (_ & _ & _ & _ & Hdef & _).
  destruct (Hdef "hello_patch" hello_body (or_introl eq_refl)) as (w' & Hrun & Hev).
  rewrite Hrun. cbn [fst snd]. rewrite Hev. split; reflexivity.
Defined.

(** C10 at a body that returns [False]. *)
Lemma success_iff_body_returns_witness :
  fst (fst (run_patch test_conn false_patch "false_patch" true empty_tx wiped))
    = Returned true /\
  fst false_run = Returned 1 /\
  existsb is_rollback (new_events wiped (snd false_run)) = false.
Proof.
  destruct (success_iff_body_returns lookup_section) as [Hverdict Hbatch].
  split.
  - apply Hverdict. exists (PyBool false). reflexivity.
  - split; [vm_compute; reflexivity|].
    apply (Hbatch test_settings [false_patch] wiped (fst false_run) (snd false_run)).
    + vm_compute. reflexivity.
    + reflexivity.
    + vm_compute. reflexivity.
Defined.

(** * Further properties of the run *)

Lemma or_else_nonempty o d : nonempty d = true -> nonempty (or_else o d) = true.
Proof.
  intros Hd. unfold or_else. destruct o as [s|]; [|exact Hd].
  destruct (String.eqb s EmptyString) eqn:Hs; [exact Hd|].
  unfold nonempty. rewrite Hs. reflexivity.
Qed.

Section Trace.

Variable get_sql_section : string -> gmap string string -> result string.
Variables (settings : BaseSettings) (conn : connection) (dpg : pg_handle) (live : bool).

(** What the loop does, event by event. *)
Lemma migrate_trace ps : forall c u tx w ex w',
  migrate get_sql_section settings conn dpg live ps c u tx w = (ex, w') ->
  glove_pg w = Some (DummyPgPool conn) ->
  exists evs, trace w' = trace w ++ evs /\
    called_names evs `sublist_of` names_of ps /\
    forallb insert_well_formed evs = true /\
    forallb (call_in_transaction conn live) evs = true /\
    forallb loop_event evs = true /\
    match ex with
    | Completed c' u' _ =>
        c' = c + Z.of_nat (length (called_names evs)) /\
        c' + u' = c + u + Z.of_nat (length ps)
    | Failed =>
        exists pre name e,
          evs = pre ++ [EvDone name (Raised e); EvRollback] /\
          existsb body_raised pre = false
    | Escaped _ => existsb body_raised evs = false
    end.
Proof.
  induction ps as [|p rest IH]; intros c u tx w ex w' H Hg; simpl in H.
  - inversion H; subst. exists []. rewrite app_nil_r. simpl.
    repeat split; try reflexivity; try lia; apply sublist_nil_l.
  - destruct (resolve_section get_sql_section settings p) as [content|e].
    2:{ inversion H; subst. exists []. rewrite app_nil_r. simpl.
        repeat split; try reflexivity; apply sublist_nil_l. }
    destruct (insert_migration (identity p content) tx w) as [[r tx1] w1] eqn:Hins.
    apply insert_migration_frame in Hins as (_ & _ & Hg1 & _ & Ht1 & _).
    assert (Hwf : insert_well_formed (EvFetchval (identity p content) r) = true).
    { simpl. rewrite !or_else_nonempty; reflexivity. }
    destruct r as [[new_id|]|e].
    + destruct (run_patch_eq conn p (fn_name (func p)) live tx1 w1)
        as (w2 & Hrun & _ & _ & Hg2 & _ & _ & Ht2).
      rewrite Hrun in H. clear Hrun.
      assert (Hcall : call_in_transaction conn live
                (EvCall (fn_name (func p)) (patch_kwargs conn live) (glove_pg w1)) = true).
      { simpl. rewrite Hg1, Hg. rewrite !bool_decide_eq_true_2; reflexivity. }
      unfold patch_events in Ht2.
      destruct (br_outcome (body_run_of conn live p tx1 w1)) as [v|e] eqn:Hout; simpl in H.
      * apply IH in H as (evs & Ht & Hsub & Hins' & Hcalls & Hloop & Hex); [|congruence].
        destruct (br_aborted (body_run_of conn live p tx1 w1)).
        all: eexists; split; [rewrite Ht, Ht2, Ht1, <- !app_assoc; reflexivity|].
        all: split; [simpl; apply sublist_skip; exact Hsub|].
        all: split; [simpl in *; rewrite Hwf, Hins'; reflexivity|].
        all: split; [simpl in *; rewrite Hcall, Hcalls; reflexivity|].
        all: split; [simpl; exact Hloop|].
        all: destruct ex as [c' u' tx'| |e'];
          [destruct Hex as [Hc' Hu']; simpl; split; lia
          |destruct Hex as (pre & name & e' & -> & Hpre)
          |simpl; exact Hex].
        -- exists ([EvFetchval (identity p content) (Returned (Some new_id));
                    EvCall (fn_name (func p)) (patch_kwargs conn live) (glove_pg w1);
                    EvAborted;
                    EvDone (fn_name (func p)) (Returned v)] ++ pre), name, e'.
           split; [reflexivity|]. simpl. exact Hpre.
        -- exists ([EvFetchval (identity p content) (Returned (Some new_id));
                    EvCall (fn_name (func p)) (patch_kwargs conn live) (glove_pg w1);
                    EvDone (fn_name (func p)) (Returned v)] ++ pre), name, e'.
           split; [reflexivity|]. simpl. exact Hpre.
      * inversion H; subst; simpl.
        destruct (br_aborted (body_run_of conn live p tx1 w1)).
        all: eexists; split; [rewrite Ht2, Ht1, <- !app_assoc; reflexivity|].
        all: split; [simpl; apply sublist_skip, sublist_nil_l|].
        all: split; [simpl in *; rewrite Hwf; reflexivity|].
        all: split; [simpl in *; rewrite Hcall; reflexivity|].
        all: split; [reflexivity|].
        -- exists [EvFetchval (identity p content) (Returned (Some new_id));
                   EvCall (fn_name (func p)) (patch_kwargs conn live) (glove_pg w1);
                   EvAborted],
                  (fn_name (func p)), e.
           split; reflexivity.
        -- exists [EvFetchval (identity p content) (Returned (Some new_id));
                   EvCall (fn_name (func p)) (patch_kwargs conn live) (glove_pg w1)],
                  (fn_name (func p)), e.
           split; reflexivity.
    + apply IH in H as (evs & Ht & Hsub & Hins' & Hcalls & Hloop & Hex); [|congruence].
      eexists. split; [rewrite Ht, Ht1, <- !app_assoc; reflexivity|].
      split; [simpl; apply sublist_cons; exact Hsub|].
      split; [simpl in *; rewrite Hwf, Hins'; reflexivity|].
      split; [simpl in *; exact Hcalls|].
      split; [simpl; exact Hloop|].
      destruct ex as [c' u' tx'| |e'].
      * destruct Hex as [Hc' Hu']. simpl. split; lia.
      * destruct Hex as (pre & name & e' & -> & Hpre).
        exists (EvFetchval (identity p content) (Returned None) :: pre), name, e'.
        split; [reflexivity|]. simpl. exact Hpre.
      * simpl. exact Hex.
    + inversion H; subst.
      eexists. split; [rewrite Ht1; reflexivity|].
      split; [apply sublist_nil_l|].
      split; [simpl in *; rewrite Hwf; reflexivity|].
      repeat split; reflexivity.
Qed.
End Trace.

Section Anatomy.
Variable get_sql_section : string -> gmap string string -> result string.

Lemma run_entered_inv settings patches live w res w' p ps :
  enters w = true ->
  List.filter eligible patches = p :: ps ->
  run_migrations get_sql_section settings patches live w = (res, w') ->
  exists tx0 w0 ex w1,
    tx0 = {| migrations := Some (ledger (committed w)); tables := tables (committed w) |} /\
    committed w0 = committed w /\
    tx_aborted w0 = false /\
    glove_pg w0 = Some (DummyPgPool {| conn_dsn := pg_dsn settings |}) /\
    trace w0 = trace w ++ prologue settings w /\
    migrate get_sql_section settings {| conn_dsn := pg_dsn settings |}
      (getattr_glove_pg w) live (p :: ps) 0 0 tx0 w0 = (ex, w1) /\
    match ex with
    | Completed c u tx1 =>
        res = Returned c /\ w' = finish live (getattr_glove_pg w) c u tx1 w1
    | Failed => res = Returned 0 /\ w' = aexit w1
    | Escaped e => res = Raised e /\ w' = aexit w1
    end.
Proof.
  intros Hent Hf Hrun.
  rewrite (run_migrations_entered get_sql_section settings _ live w p ps Hent Hf) in Hrun.
  pose proof (loop_entry_frame settings (length (p :: ps)) w Hent) as He.
  destruct (loop_entry settings (length (p :: ps)) w) as [tx0 w0].
  destruct He as (Htx0 & Hc0 & _ & Ha0 & Hg0 & Ht0).
  destruct (migrate get_sql_section settings _ _ live (p :: ps) 0 0 tx0 w0)
    as [ex w1] eqn:Hmig.
  exists tx0, w0, ex, w1. repeat (split; [assumption|]).
  destruct ex; inversion Hrun; subst; auto.
Qed.

Lemma entered_events settings live w w0 w1 w' ex evs :
  trace w0 = trace w ++ prologue settings w ->
  trace w1 = trace w0 ++ evs ->
  match ex with
  | Completed c u tx1 => w' = finish live (getattr_glove_pg w) c u tx1 w1
  | _ => w' = aexit w1
  end ->
  new_events w w' = prologue settings w ++ evs ++ closing live ex.
Proof.
  intros Ht0 Ht1 Hw'. apply new_events_app.
  destruct ex as [c u tx1| |e]; subst w'.
  - destruct (finish_frame live (getattr_glove_pg w) c u tx1 w1) as (_ & _ & _ & _ & Ht).
    rewrite Ht, Ht1, Ht0, <- !app_assoc. reflexivity.
  - destruct (aexit_frame w1) as (_ & _ & _ & _ & Ht).
    rewrite Ht, Ht1, Ht0, <- !app_assoc. reflexivity.
  - destruct (aexit_frame w1) as (_ & _ & _ & _ & Ht).
    rewrite Ht, Ht1, Ht0, <- !app_assoc. reflexivity.
Qed.

(** The shapes of a run's trace. *)
Lemma run_trace settings patches live w res w' :
  run_migrations get_sql_section settings patches live w = (res, w') ->
  (List.filter eligible patches = [] /\ res = Returned 0 /\ w' = w) \/
  (enters w = false /\ committed w' = committed w /\
   (waits w = true /\ (exists e, res = Raised e) /\
    new_events w w' =
      [EvConnect (pg_dsn settings); EvBegin; EvExecute migrations_table; EvWait; EvClose]
    \/
    waits w = false /\ res = Returned 0 /\
    new_events w w' = opening settings ++ [EvRollback; EvClose])) \/
  (enters w = true /\
   exists tx0 w0 ex w1 evs,
     migrate get_sql_section settings {| conn_dsn := pg_dsn settings |}
       (getattr_glove_pg w) live (List.filter eligible patches) 0 0 tx0 w0 = (ex, w1) /\
     tx0 = {| migrations := Some (ledger (committed w)); tables := tables (committed w) |} /\
     committed w0 = committed w /\
     tx_aborted w0 = false /\
     glove_pg w0 = Some (DummyPgPool {| conn_dsn := pg_dsn settings |}) /\
     trace w1 = trace w0 ++ evs /\
     new_events w w' = prologue settings w ++ evs ++ closing live ex /\
     match ex with
     | Completed c u tx1 =>
         res = Returned c /\ w' = finish live (getattr_glove_pg w) c u tx1 w1
     | Failed => res = Returned 0 /\ w' = aexit w1
     | Escaped e => res = Raised e /\ w' = aexit w1
     end).
Proof.
  intros Hrun.
  destruct (List.filter eligible patches) as [|p ps] eqn:Hf.
  { left. unfold run_migrations in Hrun. fold eligible in Hrun. rewrite Hf in Hrun.
    inversion Hrun; subst. auto. }
  right. destruct (enters w) eqn:Hent.
  2:{ left. split; [reflexivity|].
      destruct (run_migrations_kept_out get_sql_section settings patches live w p ps Hent Hf)
        as (res0 & w0 & Hrun0 & Hc & _ & Hshape).
      rewrite Hrun0 in Hrun. inversion Hrun; subst res0 w0; clear Hrun.
      split; [exact Hc|].
      destruct (waits w).
      - left. destruct Hshape as [-> Hev]. eauto.
      - right. destruct Hshape as (-> & Hev & _). auto. }
  right. split; [reflexivity|].
  destruct (run_entered_inv _ _ _ _ _ _ _ _ Hent Hf Hrun)
    as (tx0 & w0 & ex & w1 & Htx0 & Hc0 & Ha0 & Hg0 & Ht0 & Hmig & Hex).
  pose proof (migrate_frame _ _ _ _ _ _ _ _ _ _ _ _ Hmig) as (_ & _ & evs & Ht1 & _).
  exists tx0, w0, ex, w1, evs. repeat (split; [assumption|]).
  split; [|exact Hex].
  eapply entered_events; eauto.
  destruct ex; tauto.
Qed.
End Anatomy.

Lemma forallb_app_true {A} (f : A -> bool) l1 l2 :
  forallb f l1 = true -> forallb f l2 = true -> forallb f (l1 ++ l2) = true.
Proof. intros H1 H2. rewrite forallb_app, H1, H2. reflexivity. Qed.

Lemma called_names_closing live ex : called_names (closing live ex) = [].
Proof. destruct ex, live; reflexivity. Qed.

Lemma prologue_forallb settings w (f : event -> bool) :
  f (EvConnect (pg_dsn settings)) = true -> f EvBegin = true ->
  f (EvExecute migrations_table) = true -> f EvWait = true ->
  f (EvExecute lock_migrations) = true ->
  forallb f (prologue settings w) = true.
Proof.
  intros H1 H2 H3 H4 H5. unfold prologue. destruct (waits w); simpl;
    rewrite ?H1, ?H2, ?H3, ?H4, ?H5; reflexivity.
Qed.

(** Case analysis of a run along the shape of its trace. *)
Ltac by_run_trace Hrun :=
  destruct (run_trace _ _ _ _ _ _ _ Hrun)
    as [(Hf & Hres & Hw)
       |[(Hout & Hc & [(Hwt & [exc0 Hres] & Hev)|(Hwt & Hres & Hev)])
        |(Hent & tx0 & w0 & ex & w1 & evs & Hmig & Htx0 & Hc0 & Ha0 & Hg0 & Ht1 & Hev & Hex)]].

Section RunTrace.
Variable get_sql_section : string -> gmap string string -> result string.

(** X2. The bodies a run enters are, in this order, a sub-sequence of
    the eligible patches of the list: no manual patch is ever run, no
    patch is run out of order, and none is run more often than it is
    listed. *)
Theorem only_eligible_patches_run_in_order settings patches live w res w' :
  run_migrations get_sql_section settings patches live w = (res, w') ->
  called_names (new_events w w') `sublist_of` names_of (List.filter eligible patches).
Proof.
  intros Hrun. by_run_trace Hrun.
  - subst w'. rewrite new_events_refl. apply sublist_nil_l.
  - rewrite Hev. apply sublist_nil_l.
  - rewrite Hev. apply sublist_nil_l.
  - destruct (migrate_trace _ _ _ _ _ _ _ _ _ _ _ _ Hmig Hg0)
      as (evs' & Ht1' & Hsub & _).
    rewrite Ht1 in Ht1'. apply app_inv_head in Ht1'. subst evs'.
    plain_prologue settings w.
    rewrite Hev, !called_names_app, called_names_closing, Hp_names, app_nil_r. exact Hsub.
Qed.

(** X3. When [run_migrations] returns and no body raised, the number it
    returns is the number of patch bodies it entered, and lies between 0
    and the number of eligible patches. *)
Theorem returned_count_is_bodies_run settings patches live w n w' :
  run_migrations get_sql_section settings patches live w = (Returned n, w') ->
  existsb body_raised (new_events w w') = false ->
  n = Z.of_nat (length (called_names (new_events w w'))) /\
  0 <= n <= Z.of_nat (length (List.filter eligible patches)).
Proof.
  intros Hrun Hnone. by_run_trace Hrun.
  - subst w'. rewrite new_events_refl. inversion Hres. simpl. lia.
  - discriminate.
  - rewrite Hev. inversion Hres. simpl. lia.
  - destruct (migrate_trace _ _ _ _ _ _ _ _ _ _ _ _ Hmig Hg0)
      as (evs' & Ht1' & Hsub & _ & _ & _ & Hshape).
    rewrite Ht1 in Ht1'. apply app_inv_head in Ht1'. subst evs'.
    plain_prologue settings w.
    rewrite Hev, !called_names_app, called_names_closing, Hp_names, app_nil_r. simpl.
    destruct ex as [c u tx1| |e].
    + destruct Hex as [Hres _]. inversion Hres; subst c.
      destruct Hshape as [Hc Hu]. split; [lia|].
      apply sublist_length in Hsub. unfold names_of in Hsub. rewrite length_map in Hsub. lia.
    + destruct Hshape as (pre & name & e & -> & _).
      rewrite Hev, !existsb_app in Hnone. simpl in Hnone.
      rewrite !orb_true_r in Hnone. discriminate.
    + destruct Hex as [Hres _]. discriminate.
Qed.
End RunTrace.

Lemma finish_log live dpg count up tx w :
  log (finish live dpg count up tx w) =
    log w ++ [info (fmt_d count +:+ " migration patches run, " +:+ fmt_d up +:+
                    (if live then " already up to date ✓"
                     else " already up to date, not live rolling back"))].
Proof. unfold finish, tr_commit. destruct live; [destruct (tx_aborted _)|]; reflexivity. Qed.

Section RunOutcome.
Variable get_sql_section : string -> gmap string string -> result string.

(** X5. The first body that raises ends the run: the trace stops with
    that failure, the rollback and the close of the connection, so no
    later patch is looked up, recorded or run. *)
Theorem first_failure_ends_the_run settings patches live w res w' :
  run_migrations get_sql_section settings patches live w = (res, w') ->
  existsb body_raised (new_events w w') = true ->
  exists pre name e,
    new_events w w' = pre ++ [EvDone name (Raised e); EvRollback; EvClose] /\
    existsb body_raised pre = false.
Proof.
  intros Hrun Hsome. by_run_trace Hrun.
  - subst w'. rewrite new_events_refl in Hsome. discriminate.
  - rewrite Hev in Hsome. discriminate.
  - rewrite Hev in Hsome. discriminate.
  - destruct (migrate_trace _ _ _ _ _ _ _ _ _ _ _ _ Hmig Hg0)
      as (evs' & Ht1' & _ & _ & _ & _ & Hshape).
    rewrite Ht1 in Ht1'. apply app_inv_head in Ht1'. subst evs'.
    plain_prologue settings w.
    destruct ex as [c u tx1| |e].
    + pose proof (migrate_frame _ _ _ _ _ _ _ _ _ _ _ _ Hmig) as (_ & _ & evs' & Ht1' & _ & _ & Hq).
      rewrite Ht1 in Ht1'. apply app_inv_head in Ht1'. subst evs'.
      rewrite Hev, !existsb_app, Hp_raise, (quiet_no_raise _ Hq) in Hsome.
      destruct live; discriminate.
    + destruct Hshape as (pre & name & e & -> & Hpre).
      exists (prologue settings w ++ pre), name, e. split.
      * rewrite Hev. simpl. rewrite <- !app_assoc. reflexivity.
      * rewrite existsb_app, Hp_raise, Hpre. reflexivity.
    + rewrite Hev, !existsb_app, Hp_raise, Hshape in Hsome. discriminate.
Qed.

(** X9. Every body a run enters gets the keyword arguments of
    [run_patch] for the one connection of the run, and finds
    [glove.pg] holding the [DummyPgPool] of that same connection. *)
Theorem bodies_run_on_the_migration_connection settings patches live w res w' :
  run_migrations get_sql_section settings patches live w = (res, w') ->
  forallb (call_in_transaction {| conn_dsn := pg_dsn settings |} live) (new_events w w') = true.
Proof.
  intros Hrun. by_run_trace Hrun.
  - subst w'. rewrite new_events_refl. reflexivity.
  - rewrite Hev. reflexivity.
  - rewrite Hev. reflexivity.
  - destruct (migrate_trace _ _ _ _ _ _ _ _ _ _ _ _ Hmig Hg0)
      as (evs' & Ht1' & _ & _ & Hcalls & _).
    rewrite Ht1 in Ht1'. apply app_inv_head in Ht1'. subst evs'.
    rewrite Hev. apply forallb_app_true; [apply prologue_forallb; reflexivity|].
    apply forallb_app_true; [exact Hcalls|]. destruct ex, live; reflexivity.
Qed.

(** X11. No insert a run sends has an empty section name or an empty
    section text: absent and empty values both go in as ["-"], so that
    the unique constraint sees them. *)
Theorem inserts_never_carry_an_empty_section settings patches live w res w' :
  run_migrations get_sql_section settings patches live w = (res, w') ->
  forallb insert_well_formed (new_events w w') = true.
Proof.
  intros Hrun. by_run_trace Hrun.
  - subst w'. rewrite new_events_refl. reflexivity.
  - rewrite Hev. reflexivity.
  - rewrite Hev. reflexivity.
  - destruct (migrate_trace _ _ _ _ _ _ _ _ _ _ _ _ Hmig Hg0)
      as (evs' & Ht1' & _ & Hins & _).
    rewrite Ht1 in Ht1'. apply app_inv_head in Ht1'. subst evs'.
    rewrite Hev. apply forallb_app_true; [apply prologue_forallb; reflexivity|].
    apply forallb_app_true; [exact Hins|]. destruct ex, live; reflexivity.
Qed.

(** X4. A run that holds the lock, has eligible patches and sees no
    body fail ends its log with the summary line, and the two numbers of
    that line add up to the number of eligible patches: every one of
    them was either run or found up to date. *)
Theorem summary_accounts_for_every_patch settings patches live w n w' :
  run_migrations get_sql_section settings patches live w = (Returned n, w') ->
  locked_elsewhere w = false ->
  List.filter eligible patches <> [] ->
  existsb body_raised (new_events w w') = false ->
  last (log w') =
    Some (info (fmt_d n +:+ " migration patches run, " +:+
                fmt_d (Z.of_nat (length (List.filter eligible patches)) - n) +:+
                (if live then " already up to date ✓"
                 else " already up to date, not live rolling back"))).
Proof.
  intros Hrun Hunlocked Hsome Hnone.
  destruct (unlocked_enters w Hunlocked) as [Hin _].
  by_run_trace Hrun; try congruence.
  destruct (migrate_trace _ _ _ _ _ _ _ _ _ _ _ _ Hmig Hg0)
    as (evs' & Ht1' & _ & _ & _ & _ & Hshape).
  rewrite Ht1 in Ht1'. apply app_inv_head in Ht1'. subst evs'.
  destruct ex as [c u tx1| |e].
  - destruct Hex as [Hres ->]. inversion Hres; subst c.
    destruct Hshape as [_ Hu].
    rewrite finish_log, last_snoc.
    replace u with (Z.of_nat (length (List.filter eligible patches)) - n) by lia.
    reflexivity.
  - destruct Hshape as (pre & name & e & -> & _).
    rewrite Hev, !existsb_app in Hnone. simpl in Hnone.
    rewrite !orb_true_r in Hnone. discriminate.
  - destruct Hex as [Hres _]. discriminate.
Qed.

(** X6. With [live=False] nothing is ever committed, however the run
    ends: the committed database is the one before the call and no
    commit is sent. *)
Theorem dry_run_never_commits settings patches w res w' :
  run_migrations get_sql_section settings patches false w = (res, w') ->
  committed w' = committed w /\ existsb is_commit (new_events w w') = false.
Proof.
  intros Hrun. by_exit_path Hrun; try discriminate.
  - subst w'. rewrite new_events_refl. auto.
  - rewrite Hev. auto.
  - rewrite Hev. auto.
  - plain_prologue settings w.
    rewrite Hev, !existsb_app, Hp_cm, (Forall_existsb _ _ Hcm). auto.
  - plain_prologue settings w.
    rewrite Hev, !existsb_app, Hp_cm, (quiet_no_commit _ Hq). auto.
  - plain_prologue settings w.
    rewrite Hev, !existsb_app, Hp_cm, (quiet_no_commit _ Hq). auto.
Qed.

(** X7. When an exception leaves [run_migrations], nothing was
    committed and no body had failed; the code sends no rollback of its
    own on that path, and the last thing it does is close the connection
    (which is what discards the transaction). *)
Theorem exception_commits_nothing settings patches live w exc w' :
  run_migrations get_sql_section settings patches live w = (Raised exc, w') ->
  committed w' = committed w /\
  existsb is_commit (new_events w w') = false /\
  existsb is_rollback (new_events w w') = false /\
  existsb body_raised (new_events w w') = false /\
  last (new_events w w') = Some EvClose.
Proof.
  intros Hrun. by_exit_path Hrun; try discriminate.
  - rewrite Hev. auto.
  - plain_prologue settings w.
    rewrite Hev, !existsb_app, Hp_cm, Hp_rb, Hp_raise, (quiet_no_commit _ Hq),
      (quiet_no_rollback _ Hq), (quiet_no_raise _ Hq).
    repeat split; try assumption.
    rewrite app_assoc. apply last_snoc.
Qed.
End RunOutcome.

Lemma recorded_false_not_in i rows :
  recorded i rows = false -> i ∉ map row_ident rows.
Proof.
  induction rows as [|r rows IH]; simpl; intros H Hin.
  - inversion Hin.
  - apply orb_false_iff in H as [Hr Hrest]. apply bool_decide_eq_false in Hr.
    apply elem_of_cons in Hin as [Hin|Hin]; [congruence|]. exact (IH Hrest Hin).
Qed.

Lemma char_length_app (a b : string) :
  char_length (a +:+ b) = (char_length a + char_length b)%nat.
Proof.
  induction a as [|c a IH]; [reflexivity|].
  change (((if is_continuation c then 0 else 1) + char_length (a +:+ b))%nat
          = ((if is_continuation c then 0 else 1) + char_length a + char_length b)%nat).
  rewrite IH. lia.
Qed.

Lemma char_length_dashes n : char_length (dashes n) = n.
Proof.
  induction n as [|n IH]; [reflexivity|].
  change (char_length ("-" +:+ dashes n) = S n).
  rewrite char_length_app, IH. reflexivity.
Qed.

Lemma filter_eligible_idem patches :
  List.filter eligible (List.filter eligible patches) = List.filter eligible patches.
Proof.
  induction patches as [|p ps IH]; simpl; [reflexivity|].
  destruct (eligible p) eqn:Hp; simpl; [rewrite Hp, IH|]; auto.
Qed.

(** X15. The banners of [run_patch]: ['{:-^50}'.format(s)] is 50
    characters wide for a text of up to 50 characters, and is the text
    itself from 50 characters on. *)
Theorem banner_width s :
  char_length (banner s) = Nat.max 50 (char_length s) /\
  (50 <= char_length s -> banner s = s)%nat.
Proof.
  unfold banner. split.
  - rewrite !char_length_app, !char_length_dashes.
    pose proof (Nat.div_mod_eq (50 - char_length s) 2).
    pose proof (Nat.mod_upper_bound (50 - char_length s) 2). lia.
  - intros H. replace (50 - char_length s)%nat with 0%nat by lia.
    change (s +:+ EmptyString = s).
    clear. induction s as [|c s IH]; [reflexivity|].
    change (String c (s +:+ EmptyString) = String c s). f_equal. exact IH.
Qed.

Section RunLedger.
Variable get_sql_section : string -> gmap string string -> result string.

(** A loop that falls off its end has only appended to the ledger of
    its transaction, and kept its tuples distinct. *)
Lemma migrate_ledger settings conn dpg live ps : forall c u tx w c' u' tx' w' rows,
  migrate get_sql_section settings conn dpg live ps c u tx w = (Completed c' u' tx', w') ->
  migrations tx = Some rows ->
  exists added, migrations tx' = Some (rows ++ added) /\
    (NoDup (map row_ident rows) -> NoDup (map row_ident (rows ++ added))).
Proof.
  induction ps as [|p rest IH]; intros c u tx w c' u' tx' w' rows H Hm; simpl in H.
  - inversion H; subst. exists []. rewrite app_nil_r. auto.
  - destruct (resolve_section get_sql_section settings p) as [content|e]; [|discriminate].
    destruct (insert_migration (identity p content) tx w) as [[r tx1] w1] eqn:Hins.
    destruct r as [o|e]; [|discriminate].
    apply insert_migration_Returned in Hins as (stored & rows0 & _ & Hm0 & Ho).
    rewrite Hm in Hm0. inversion Hm0; subst rows0; clear Hm0.
    destruct o as [new_id|].
    + destruct Ho as [Hnew Hm1].
      destruct (run_patch_eq conn p (fn_name (func p)) live tx1 w1) as (w2 & Hrun & _).
      rewrite Hrun in H. clear Hrun.
      destruct (is_returned _); [|discriminate].
      eapply IH in H as (added & Hm' & Hnd); [|simpl; exact Hm1].
      exists ({| id := new_id; row_ident := stored |} :: added).
      rewrite <- app_assoc in Hm'. split; [exact Hm'|].
      intros Hrows. rewrite <- app_assoc in Hnd. apply Hnd.
      rewrite List.map_app. simpl. apply NoDup_app. split; [exact Hrows|].
      split; [|apply NoDup_singleton].
      intros j Hj Hj'. apply list_elem_of_singleton in Hj'. subst j.
      exact (recorded_false_not_in _ _ Hnew Hj).
    + destruct Ho as [_ ->]. eapply IH in H; eauto.
Qed.

(** X12. A run only ever appends to the ledger: the committed rows
    after the call are those before it followed by the new ones, and if
    the identity tuples were pairwise distinct before they still are. *)
Theorem ledger_is_append_only settings patches live w res w' :
  run_migrations get_sql_section settings patches live w = (res, w') ->
  exists added,
    ledger (committed w') = ledger (committed w) ++ added /\
    (NoDup (map row_ident (ledger (committed w))) ->
     NoDup (map row_ident (ledger (committed w')))).
Proof.
  intros Hrun. by_run_trace Hrun.
  - subst w'. exists []. rewrite app_nil_r. auto.
  - rewrite Hc. exists []. rewrite app_nil_r. auto.
  - rewrite Hc. exists []. rewrite app_nil_r. auto.
  - pose proof (migrate_frame _ _ _ _ _ _ _ _ _ _ _ _ Hmig) as (Hc1 & _).
    destruct ex as [c u tx1| |e].
    + destruct Hex as [_ ->].
      destruct (finish_frame live (getattr_glove_pg w) c u tx1 w1) as (Hcf & _).
      cbv beta zeta in Hcf. rewrite Hcf. destruct live; [destruct (tx_aborted w1)|].
      * rewrite Hc1, Hc0. exists []. rewrite app_nil_r. auto.
      * eapply migrate_ledger in Hmig as (added & Hm1 & Hnd); [|rewrite Htx0; reflexivity].
        exists added.
        assert (Hl1 : ledger tx1 = ledger (committed w) ++ added)
          by (unfold ledger at 1; rewrite Hm1; reflexivity).
        rewrite Hl1. auto.
      * rewrite Hc1, Hc0. exists []. rewrite app_nil_r. auto.
    + destruct Hex as [_ ->]. destruct (aexit_frame w1) as (Hca & _).
      rewrite Hca, Hc1, Hc0. exists []. rewrite app_nil_r. auto.
    + destruct Hex as [_ ->]. destruct (aexit_frame w1) as (Hca & _).
      rewrite Hca, Hc1, Hc0. exists []. rewrite app_nil_r. auto.
Qed.

(** X8. A run either touches nothing, or opens one connection and one
    transaction, sends the table DDL, and closes the connection last.
    In between, either the DDL waited for another session and failed,
    and nothing else was sent; or the [nowait] lock follows the DDL
    (and the wait, if there was one), and after it there are only
    inserts, bodies, and the rollback or commit. *)
Theorem one_connection_one_transaction settings patches live w res w' :
  run_migrations get_sql_section settings patches live w = (res, w') ->
  new_events w w' = [] \/
  exists mid,
    new_events w w' =
      [EvConnect (pg_dsn settings); EvBegin; EvExecute migrations_table] ++ mid ++ [EvClose] /\
    ((mid = [EvWait] /\ exists e, res = Raised e) \/
     exists rest,
       mid = (if waits w then [EvWait] else []) ++ [EvExecute lock_migrations] ++ rest /\
       forallb statement_event rest = true).
Proof.
  intros Hrun. by_run_trace Hrun.
  - subst w'. left. apply new_events_refl.
  - right. exists [EvWait]. rewrite Hev. split; [reflexivity|]. left. eauto.
  - right. exists [EvExecute lock_migrations; EvRollback]. rewrite Hev.
    split; [reflexivity|]. right. exists [EvRollback]. rewrite Hwt. auto.
  - right.
    destruct (migrate_trace _ _ _ _ _ _ _ _ _ _ _ _ Hmig Hg0)
      as (evs' & Ht1' & _ & _ & _ & Hloop & _).
    rewrite Ht1 in Ht1'. apply app_inv_head in Ht1'. subst evs'.
    assert (Hst : forallb statement_event evs = true).
    { rewrite forallb_forall in *. intros x Hx. unfold statement_event.
      rewrite (Hloop x Hx). reflexivity. }
    assert (Hcl : exists rest, evs ++ closing live ex = rest ++ [EvClose] /\
                               forallb statement_event rest = true).
    { destruct ex as [c u tx1| |e].
      - exists (evs ++ [if live then EvCommit else EvRollback]). split.
        + simpl. rewrite <- app_assoc. reflexivity.
        + apply forallb_app_true; [exact Hst|]. destruct live; reflexivity.
      - exists evs. auto.
      - exists evs. auto. }
    destruct Hcl as (rest & Hcl & Hrest).
    exists ((if waits w then [EvWait] else []) ++ [EvExecute lock_migrations] ++ rest).
    split.
    + rewrite Hev, Hcl. unfold prologue. rewrite <- !app_assoc. reflexivity.
    + right. exists rest. auto.
Qed.

(** X1. Patches without [auto_ref] have no influence on a run: the
    result and the world are those of the run over the eligible patches
    alone. *)
Theorem manual_patches_are_ignored settings patches live w :
  run_migrations get_sql_section settings patches live w =
  run_migrations get_sql_section settings (List.filter eligible patches) live w.
Proof.
  unfold run_migrations. fold eligible. rewrite filter_eligible_idem. reflexivity.
Qed.

(** X13. A live run over N eligible patches whose identity tuples
    resolve, fit, are pairwise distinct and are new, with the lock free,
    in which no body raises and none leaves the transaction in the
    failed state, returns N, runs the bodies in list order, and leaves
    the ledger with exactly those tuples appended in list order. *)
Theorem live_run_records_new_patches settings patches ids w res w' :
  Forall (fun p => truthy (auto_ref p) = true) patches ->
  locked_elsewhere w = false ->
  identities get_sql_section settings patches = Some ids ->
  forallb fits_columns ids = true ->
  NoDup ids ->
  Forall (fun i => recorded i (ledger (committed w)) = false) ids ->
  run_migrations get_sql_section settings patches true w = (res, w') ->
  existsb body_raised (new_events w w') = false ->
  existsb tx_failed (new_events w w') = false ->
  res = Returned (Z.of_nat (length patches)) /\
  called_names (new_events w w') = names_of patches /\
  map row_ident (ledger (committed w')) = map row_ident (ledger (committed w)) ++ ids.
Proof.
  intros Hel Hfree Hids Hfit Hnd Hnew Hrun Hnr Hnf.
  destruct (run_migrations_all_new _ _ _ _ _ _ _ _ Hel Hfree Hids Hfit Hnd Hnew Hrun Hnr Hnf)
    as (Hres & Hcalls & _ & Hlive).
  auto.
Qed.

(** X14. When the ledger already has the tuple of every eligible patch
    and the lock is free, the run, live or not, returns 0, enters no
    body and leaves the committed database as it was. *)
Theorem recorded_patches_are_skipped settings patches live ids w res w' :
  locked_elsewhere w = false ->
  identities get_sql_section settings (List.filter eligible patches) = Some ids ->
  forallb fits_columns ids = true ->
  Forall (fun i => recorded i (ledger (committed w)) = true) ids ->
  run_migrations get_sql_section settings patches live w = (res, w') ->
  res = Returned 0 /\
  called_names (new_events w w') = [] /\
  committed w' = committed w.
Proof.
  intros Hunlocked Hids Hfit Hrec Hrun.
  destruct (List.filter eligible patches) as [|p ps] eqn:Hf.
  { unfold run_migrations in Hrun. fold eligible in Hrun. rewrite Hf in Hrun.
    inversion Hrun; subst. rewrite new_events_refl. auto. }
  destruct (unlocked_enters w Hunlocked) as [Hent _].
  destruct (run_entered_inv _ _ _ _ _ _ _ _ _ Hent Hf Hrun)
    as (tx0 & w0 & ex & w1 & Htx0 & Hc0 & Ha0 & Hg0 & Ht0 & Hmig & Hex).
  rewrite (unlocked_prologue settings w Hunlocked) in Ht0.
  destruct (ledger (committed w)) as [|r rows] eqn:Hled.
  { apply identities_cons in Hids as (i & ids' & -> & _).
    apply Forall_cons in Hrec as [Hi _]. discriminate. }
  assert (Htx : tx0 = committed w).
  { subst tx0. unfold ledger in Hled. destruct (committed w) as [[rows0|] tbl]; simpl in *;
      congruence. }
  assert (Hknown : Forall (known (r :: rows)) ids).
  { rewrite forallb_forall in Hfit. rewrite Forall_forall in Hrec.
    apply Forall_forall. intros i Hi. exists i. split.
    - apply store_ident_fits. apply Hfit. apply list_elem_of_In. exact Hi.
    - apply Hrec. exact Hi. }
  destruct (migrate_all_recorded get_sql_section settings {| conn_dsn := pg_dsn settings |}
              (getattr_glove_pg w) live (p :: ps) ids 0 0 tx0 w0 (r :: rows) Ha0 Hids)
    as (w1' & Hmig' & Ha1 & Ht1).
  { subst tx0. reflexivity. }
  { exact Hknown. }
  pose proof (migrate_frame _ _ _ _ _ _ _ _ _ _ _ _ Hmig) as (Hc1 & _).
  rewrite Hmig in Hmig'. inversion Hmig'; subst ex w1'; clear Hmig'.
  destruct Hex as [-> ->]. split; [reflexivity|].
  match goal with
  | |- context [finish ?l ?g ?c ?u ?t ?x] =>
      destruct (finish_frame l g c u t x) as (Hcf & _ & _ & _ & Htf)
  end.
  cbv beta zeta in Hcf, Htf. split.
  - erewrite new_events_app.
    2:{ rewrite Htf, Ht1, Ht0, <- !app_assoc. reflexivity. }
    rewrite !called_names_app. unfold opening. simpl.
    assert (Hn : called_names (map (fun i => EvFetchval i (Returned None)) ids) = [])
      by (clear; induction ids; simpl; auto).
    rewrite Hn. destruct live; reflexivity.
  - rewrite Hcf, Ha1. destruct live; [exact Htx|congruence].
Qed.
End RunLedger.

(** * Witnesses of the further properties *)

(** X2 at a list with manual patches in it. *)
Lemma only_eligible_patches_run_in_order_witness :
  called_names (new_events wiped (snd mixed_run)) `sublist_of`
    names_of (List.filter eligible [manual_patch; hello_patch; manual_patch; ok_patch]).
Proof.
  apply (only_eligible_patches_run_in_order lookup_section test_settings
           [manual_patch; hello_patch; manual_patch; ok_patch] true wiped (fst mixed_run)).
  vm_compute. reflexivity.
Defined.

(** X3 at the first call of [test_run_migrations_ok]. *)
Lemma returned_count_is_bodies_run_witness :
  1 = Z.of_nat (length (called_names (new_events wiped (snd first_run)))) /\
  0 <= 1 <= Z.of_nat (length (List.filter eligible [ok_patch])).
Proof.
  apply (returned_count_is_bodies_run lookup_section test_settings [ok_patch] true wiped).
  - vm_compute. reflexivity.
  - vm_compute. reflexivity.
Defined.

(** X4 at the second call of [test_run_migrations_ok]. *)
Lemma summary_accounts_for_every_patch_witness :
  last (log (snd second_run)) =
    Some (info (fmt_d 0 +:+ " migration patches run, " +:+
                fmt_d (Z.of_nat (length (List.filter eligible [ok_patch])) - 0) +:+
                " already up to date ✓")).
Proof.
  apply (summary_accounts_for_every_patch lookup_section test_settings [ok_patch] true
           (snd first_run) 0 (snd second_run)).
  - vm_compute. reflexivity.
  - vm_compute. reflexivity.
  - discriminate.
  - vm_compute. reflexivity.
Defined.

(** X5 at [test_run_migrations_error]. *)
Lemma first_failure_ends_the_run_witness :
  exists pre name e,
    new_events wiped (snd failing_batch) = pre ++ [EvDone name (Raised e); EvRollback; EvClose] /\
    existsb body_raised pre = false.
Proof.
  apply (first_failure_ends_the_run lookup_section test_settings
           [hello_patch; error_patch] true wiped (fst failing_batch)).
  - vm_compute. reflexivity.
  - vm_compute. reflexivity.
Defined.

(** X6 at a dry run. *)
Lemma dry_run_never_commits_witness :
  committed (snd duplicate_dry_run) = committed wiped /\
  existsb is_commit (new_events wiped (snd duplicate_dry_run)) = false.
Proof.
  apply (dry_run_never_commits lookup_section test_settings [ok_patch; ok_patch] wiped
           (fst duplicate_dry_run)).
  vm_compute. reflexivity.
Defined.

(** X7 at a patch whose section is missing. *)
Lemma exception_commits_nothing_witness :
  committed (snd orphan_run) = committed wiped /\
  existsb is_commit (new_events wiped (snd orphan_run)) = false /\
  existsb is_rollback (new_events wiped (snd orphan_run)) = false /\
  existsb body_raised (new_events wiped (snd orphan_run)) = false /\
  last (new_events wiped (snd orphan_run)) = Some EvClose.
Proof.
  apply (exception_commits_nothing lookup_section test_settings [orphan_patch] true wiped
           section_not_found).
  vm_compute. reflexivity.
Defined.

(** X8 at a run that starts while the table is being created elsewhere. *)
Lemma one_connection_one_transaction_witness :
  new_events racing (snd racing_run) = [] \/
  exists mid,
    new_events racing (snd racing_run) =
      [EvConnect (pg_dsn test_settings); EvBegin; EvExecute migrations_table]
      ++ mid ++ [EvClose] /\
    ((mid = [EvWait] /\ exists e, fst racing_run = Raised e) \/
     exists rest,
       mid = (if waits racing then [EvWait] else []) ++ [EvExecute lock_migrations] ++ rest /\
       forallb statement_event rest = true).
Proof.
  apply (one_connection_one_transaction lookup_section test_settings [ok_patch] true racing
           (fst racing_run)).
  vm_compute. reflexivity.
Defined.

(** X9 at a live run of two patches. *)
Lemma bodies_run_on_the_migration_connection_witness :
  forallb (call_in_transaction {| conn_dsn := pg_dsn test_settings |} true)
    (new_events wiped (snd distinct_live_run)) = true.
Proof.
  apply (bodies_run_on_the_migration_connection lookup_section test_settings
           [ok_patch; hello_patch] true wiped (fst distinct_live_run)).
  vm_compute. reflexivity.
Defined.

(** X10 at [test_run_migrations_error]. *)
Lemma glove_pg_restored_on_return_witness :
  getattr_glove_pg (snd failing_batch) = getattr_glove_pg wiped.
Proof.
  apply (glove_pg_restored_on_return lookup_section test_settings
           [hello_patch; error_patch] true wiped 0).
  vm_compute. reflexivity.
Defined.

(** X11 at a run with and without a section. *)
Lemma inserts_never_carry_an_empty_section_witness :
  forallb insert_well_formed (new_events wiped (snd colliding_run)) = true.
Proof.
  apply (inserts_never_carry_an_empty_section lookup_section test_settings
           [ok_patch; dash_patch] true wiped (fst colliding_run)).
  vm_compute. reflexivity.
Defined.

(** X12 at the second call of [test_run_migrations_ok]. *)
Lemma ledger_is_append_only_witness :
  exists added,
    ledger (committed (snd second_run)) = ledger (committed (snd first_run)) ++ added /\
    (NoDup (map row_ident (ledger (committed (snd first_run)))) ->
     NoDup (map row_ident (ledger (committed (snd second_run))))).
Proof.
  apply (ledger_is_append_only lookup_section test_settings [ok_patch] true (snd first_run)
           (fst second_run)).
  vm_compute. reflexivity.
Defined.

(** X13 at a live run of two patches. *)
Lemma live_run_records_new_patches_witness :
  fst distinct_live_run = Returned (Z.of_nat (length [ok_patch; hello_patch])) /\
  called_names (new_events wiped (snd distinct_live_run)) = names_of [ok_patch; hello_patch] /\
  map row_ident (ledger (committed (snd distinct_live_run))) =
    map row_ident (ledger (committed wiped))
    ++ [identity ok_patch None; identity hello_patch None].
Proof.
  apply (live_run_records_new_patches lookup_section test_settings [ok_patch; hello_patch]
           [identity ok_patch None; identity hello_patch None] wiped).
  - repeat constructor.
  - reflexivity.
  - reflexivity.
  - vm_compute. reflexivity.
  - apply (bool_decide_unpack _). vm_compute. exact I.
  - repeat constructor.
  - vm_compute. reflexivity.
  - vm_compute. reflexivity.
  - vm_compute. reflexivity.
Defined.

(** X14 at the second call of [test_run_migrations_ok]. *)
Lemma recorded_patches_are_skipped_witness :
  fst second_run = Returned 0 /\
  called_names (new_events (snd first_run) (snd second_run)) = [] /\
  committed (snd second_run) = committed (snd first_run).
Proof.
  apply (recorded_patches_are_skipped lookup_section test_settings [ok_patch] true
           [sentinel_row]).
  - vm_compute. reflexivity.
  - vm_compute. reflexivity.
  - vm_compute. reflexivity.
  - constructor; [vm_compute; reflexivity|constructor].
  - vm_compute. reflexivity.
Defined.

(** X15 at a banner with a character of two bytes. *)
Lemma banner_width_witness :
  char_length (banner " running café ") = 50%nat /\
  String.length (banner " running café ") = 51%nat.
Proof.
  destruct (banner_width " running café ") as [Hwidth _].
  rewrite Hwidth. split; vm_compute; reflexivity.
Defined.
